(** * www/orm.py: a shallow embedding of the object-relational mapping layer

    The development follows the layout of [www/orm.py]:

    - the Python prelude the module relies on (values, truthiness, the
      string operations used to render the SQL templates);
    - [Field] and its subclasses;
    - [ModelMetaclass.__new__], the schema compiler;
    - the pooled SQL executor [executeSql];
    - [Model], the record entity with its CRUD operations.

    The database driver (aiomysql) is an external collaborator: the module
    is verified against every driver behaviour, taken as a record of
    operations over an abstract engine state. *)

From stdpp Require Import gmap strings list pretty.
From Stdlib Require Import Ascii ZArith Permutation.

Set Warnings "-register-all".

Local Open Scope string_scope.
Local Open Scope Z_scope.

(** ** Python prelude *)

(** Exceptions, all of them subclasses of [Exception].  [Error] stands for
    any exception raised by the driver (connectivity loss, constraint
    violation, malformed SQL, ...). *)
Inductive exn : Type :=
| RuntimeError (msg : string)
| TypeError (msg : string)
| KeyError (key : string)
| AttributeError (msg : string)
| Error (msg : string).

(** The outcome of a Python call: a returned value or a raised exception. *)
Inductive result (A : Type) : Type :=
| Ok (a : A)
| Raise (e : exn).
Arguments Ok {A} a.
Arguments Raise {A} e.

(** Python values held by records and by result rows.  A row fetched
    through [aiomysql.DictCursor] is a [VDict].  [VObject] is any other
    object, known by the name of its type and by what it is: a bound
    method, a [Field] instance, ... *)
Inductive value : Type :=
| VNone
| VBool (b : bool)
| VInt (z : Z)
| VStr (s : string)
| VList (l : list value)
| VDict (d : list (string * value))
| VObject (type_ : string) (what : string).

Definition is_None (v : value) : bool :=
  match v with VNone => true | _ => false end.

Definition str_truthy (s : string) : bool :=
  match s with EmptyString => false | _ => true end.

(** [len(v)] *)
Definition type_name (v : value) : string :=
  match v with
  | VNone => "NoneType"
  | VBool _ => "bool"
  | VInt _ => "int"
  | VStr _ => "str"
  | VList _ => "list"
  | VDict _ => "dict"
  | VObject t _ => t
  end.

Definition py_len (v : value) : result Z :=
  match v with
  | VList l => Ok (Z.of_nat (length l))
  | VDict d => Ok (Z.of_nat (length d))
  | VStr s => Ok (Z.of_nat (String.length s))
  | _ => Raise (TypeError ("object of type '" +:+ type_name v +:+ "' has no len()"))
  end.

(** [sep.join(l)] *)
Definition join (sep : string) (l : list string) : string := String.concat sep l.

(** [s * n] *)
Fixpoint str_mul (s : string) (n : nat) : string :=
  match n with
  | O => EmptyString
  | S n' => s +:+ str_mul s n'
  end.

(** Iterating over a string yields its characters as one-character strings. *)
Fixpoint chars (s : string) : list string :=
  match s with
  | EmptyString => []
  | String c s' => String c EmptyString :: chars s'
  end.

(** [sql.replace('?', '%s')] *)
Fixpoint replace_qmark (s : string) : string :=
  match s with
  | EmptyString => EmptyString
  | String c s' =>
      if Ascii.eqb c "?"%char then "%s" +:+ replace_qmark s'
      else String c (replace_qmark s')
  end.

(** ** Insertion-ordered dictionaries with string keys

    [attrs] and [mappings] are iterated, so their order matters: they are
    association lists with the update-in-place behaviour of [d[k] = v]. *)
Section Dict.
Context {V : Type}.

Fixpoint dict_get (k : string) (d : list (string * V)) : option V :=
  match d with
  | [] => None
  | (k', v) :: d' => if String.eqb k k' then Some v else dict_get k d'
  end.

Fixpoint dict_set (k : string) (v : V) (d : list (string * V)) : list (string * V) :=
  match d with
  | [] => [(k, v)]
  | (k', v') :: d' =>
      if String.eqb k k' then (k, v) :: d' else (k', v') :: dict_set k v d'
  end.

Definition dict_keys (d : list (string * V)) : list string := map fst d.

(** [d.pop(k)] for a key known to be present. *)
Fixpoint dict_pop (k : string) (d : list (string * V)) : list (string * V) :=
  match d with
  | [] => []
  | (k', v) :: d' => if String.eqb k k' then d' else (k', v) :: dict_pop k d'
  end.
End Dict.

(** ** Logging *)

Inductive level : Type := DEBUG | INFO | WARNING | ERROR.

(** A record handed to the root logger: [logging.error(e)] passes the
    exception object itself as the message. *)
Inductive logmsg : Type :=
| Text (s : string)
| Exc (e : exn).

Record LogRecord : Type := mkLog { lvl : level; msg : logmsg }.

(** ** Field descriptors *)

(** A default is a plain value (possibly [None]) or a zero-argument
    callable, which returns a value or raises;
    [callable(field.default)] tells them apart. *)
Inductive default_ : Type :=
| Literal (v : value)
| Factory (f : unit -> result value).

Definition default_is_None (d : default_) : bool :=
  match d with Literal VNone => true | _ => false end.

Module Field.
Record t : Type := __init__ {
  class__name : string;          (* self.__class__.__name__ *)
  name : option string;
  column_type : string;
  primary_key : bool;
  default : default_
}.

Definition str_of_name (n : option string) : string :=
  match n with Some s => s | None => "None" end.

Definition __str__ (self : t) : string :=
  "<" +:+ class__name self +:+ ", " +:+ column_type self +:+ ":"
      +:+ str_of_name (name self) +:+ ">".
End Field.

Definition StringField (name : option string) (primary_key : bool)
    (default : default_) (ddl : string) : Field.t :=
  Field.__init__ "StringField" name ddl primary_key default.

Definition BooleanField (name : option string) (default : default_) : Field.t :=
  Field.__init__ "BooleanField" name "boolean" false default.

Definition IntegerField (name : option string) (primary_key : bool)
    (default : default_) : Field.t :=
  Field.__init__ "IntegerField" name "bigint" primary_key default.

Definition TextField (name : option string) (default : default_) : Field.t :=
  Field.__init__ "TextField" name "text" false default.

(** ** The schema compiler *)

(** An entry of a class body: a [Field] instance, a string, or any other
    object, of which the compiler only observes the truth value and the
    [str()] conversion. *)
Inductive attr : Type :=
| AField (f : Field.t)
| AStr (s : string)
| AObject (truth : bool) (str_ : string).

Definition attr_truthy (a : attr) : bool :=
  match a with
  | AField _ => true
  | AStr s => str_truthy s
  | AObject b _ => b
  end.

Definition attr_str (a : attr) : string :=
  match a with
  | AField f => Field.__str__ f
  | AStr s => s
  | AObject _ s => s
  end.

(** What the metaclass stores on a compiled table class. *)
Record Schema : Type := mkSchema {
  __name__ : string;
  __mappings__ : list (string * Field.t);
  __table__ : string;
  __primary_key__ : string;
  __fields__ : list string;
  __select__ : string;
  __insert__ : string;
  __update__ : string;
  __delete__ : string;
  namespace : list (string * value)   (* [attrs] as handed to [type.__new__] *)
}.

(** The class object [type.__new__] builds: the base class [Model], left
    as it is, or a compiled table class. *)
Inductive class : Type :=
| Plain (name : string) (attrs : list (string * attr))
| Table (s : Schema).

Module ModelMetaclass.

(** The state of the loop over [attrs.items()]. *)
Record scan_state : Type := mkScan {
  mappings : list (string * Field.t);
  fields : list string;
  primaryKey : option string
}.

(** [if primaryKey:] on a variable holding [None] or a key. *)
Definition pk_truthy (pk : option string) : bool :=
  match pk with Some k => str_truthy k | None => false end.

Fixpoint scan (items : list (string * attr)) (st : scan_state)
    (logs : list LogRecord) : list LogRecord * result scan_state :=
  match items with
  | [] => (logs, Ok st)
  | (k, AField v) :: rest =>
      let logs' :=
        (logs ++ [mkLog INFO (Text ("  found mapping: " +:+ k +:+ " ==> " +:+ Field.__str__ v))])%list in
      let mappings' := dict_set k v (mappings st) in
      if Field.primary_key v then
        if pk_truthy (primaryKey st) then
          (logs', Raise (RuntimeError ("Duplicate primary key for field: " +:+ k)))
        else scan rest (mkScan mappings' (fields st) (Some k)) logs'
      else scan rest (mkScan mappings' (fields st ++ [k])%list (primaryKey st)) logs'
  | _ :: rest => scan rest st logs
  end.

(** [x or y] on a name that is [None] or a string. *)
Definition name_or (n : option string) (f : string) : string :=
  match n with
  | Some s => if str_truthy s then s else f
  | None => f
  end.

Definition backtick (f : string) : string := "`" +:+ f +:+ "`".

(** [lambda f: '`%s`=?' % (mappings.get(f).name or f)] *)
Definition set_item (mappings : list (string * Field.t)) (f : string) : result string :=
  match dict_get f mappings with
  | Some fld => Ok ("`" +:+ name_or (Field.name fld) f +:+ "`=?")
  | None => Raise (AttributeError "'NoneType' object has no attribute 'name'")
  end.

Fixpoint map_result {A B} (f : A -> result B) (l : list A) : result (list B) :=
  match l with
  | [] => Ok []
  | x :: l' =>
      match f x with
      | Raise e => Raise e
      | Ok y => match map_result f l' with
                | Raise e => Raise e
                | Ok ys => Ok (y :: ys)
                end
      end
  end.

(** [attrs.get('__table__', None) or name] *)
Definition table_name (name : string) (attrs : list (string * attr)) : string :=
  match dict_get "__table__" attrs with
  | Some a => if attr_truthy a then attr_str a else name
  | None => name
  end.

(** The entries of [attrs] as Python objects. *)
Definition field_object (f : Field.t) : value :=
  VObject (Field.class__name f) (Field.__str__ f).

Definition attr_value (a : attr) : value :=
  match a with
  | AField f => field_object f
  | AStr s => VStr s
  | AObject _ s => VObject "object" s
  end.

(** The object [tableName] is bound to; [table_name] is its [str()], as
    the ['%s'] conversions render it. *)
Definition table_object (name : string) (attrs : list (string * attr)) : value :=
  match dict_get "__table__" attrs with
  | Some a => if attr_truthy a then attr_value a else VStr name
  | None => VStr name
  end.

(** [attrs[k] = v], for each of the entries [kvs] in turn. *)
Definition store_all (kvs : list (string * value)) (d : list (string * value))
    : list (string * value) :=
  fold_left (fun d kv => dict_set (fst kv) (snd kv) d) kvs d.

Definition __new__ (name : string) (attrs : list (string * attr))
    : list LogRecord * result class :=
  if String.eqb name "Model" then ([], Ok (Plain name attrs))
  else
    let tableName := table_name name attrs in
    let log0 :=
      [mkLog INFO (Text ("found model: " +:+ name +:+ " (table: " +:+ tableName +:+ ")"))] in
    match scan attrs (mkScan [] [] None) log0 with
    | (logs, Raise e) => (logs, Raise e)
    | (logs, Ok st) =>
        match primaryKey st with
        | None => (logs, Raise (RuntimeError "Primary key not found."))
        | Some primaryKey =>
            if negb (str_truthy primaryKey) then
              (logs, Raise (RuntimeError "Primary key not found."))
            else
              let attrs' := fold_left (fun a k => dict_pop k a) (dict_keys (mappings st)) attrs in
              let escaped_fields := map backtick (fields st) in
              match map_result (set_item (mappings st)) (fields st) with
              | Raise e => (logs, Raise e)
              | Ok sets =>
                  let select_ :=
                    "select `" +:+ primaryKey +:+ "`, " +:+ join ", " escaped_fields
                      +:+ " from `" +:+ tableName +:+ "`" in
                  let insert_ :=
                    "insert into `" +:+ tableName +:+ "` (" +:+ join ", " escaped_fields
                      +:+ ", `" +:+ primaryKey +:+ "`) values ("
                      +:+ join ", " (chars (str_mul "?" (length escaped_fields + 1))) +:+ ")" in
                  let update_ :=
                    "update `" +:+ tableName +:+ "` set " +:+ join ", " sets
                      +:+ " where `" +:+ primaryKey +:+ "`=?" in
                  let delete_ :=
                    "delete from `" +:+ tableName +:+ "` where `" +:+ primaryKey +:+ "`=?" in
                  (logs, Ok (Table {|
                    __name__ := name;
                    __mappings__ := mappings st;
                    __table__ := tableName;
                    __primary_key__ := primaryKey;
                    __fields__ := fields st;
                    __select__ := select_;
                    __insert__ := insert_;
                    __update__ := update_;
                    __delete__ := delete_;
                    namespace :=
                      store_all
                        [ ("__mappings__",
                           VDict (map (fun kf => (fst kf, field_object (snd kf))) (mappings st)));
                          ("__table__", table_object name attrs);
                          ("__primary_key__", VStr primaryKey);
                          ("__fields__", VList (map VStr (fields st)));
                          ("__select__", VStr select_);
                          ("__insert__", VStr insert_);
                          ("__update__", VStr update_);
                          ("__delete__", VStr delete_) ]
                        (map (fun ka => (fst ka, attr_value (snd ka))) attrs')
                  |}))
              end
        end
    end.

End ModelMetaclass.

(** The class [Student] declared at the end of the module. *)
Definition Student_attrs : list (string * attr) :=
  [ ("__table__", AStr "Student");
    ("SId", AField (IntegerField None true (Literal (VInt 0))));
    ("Sname", AField (StringField None false (Literal VNone) "varchar(100)"));
    ("Sage", AField (StringField None false (Literal VNone) "varchar(100)"));
    ("Ssex", AField (StringField None false (Literal VNone) "varchar(100)")) ].

(** ** State and exceptions

    Calls that mutate an object or the outside world thread a state [S];
    a raised exception leaves the state as the call left it. *)
Definition M (S A : Type) : Type := S -> S * result A.

Definition ret {S A} (a : A) : M S A := fun s => (s, Ok a).

Definition raise {S A} (e : exn) : M S A := fun s => (s, Raise e).

Definition bind {S A B} (c : M S A) (k : A -> M S B) : M S B :=
  fun s =>
    match c s with
    | (s', Ok a) => k a s'
    | (s', Raise e) => (s', Raise e)
    end.

(** [try: c  except Exception as e: h e] *)
Definition try_except {S A} (c : M S A) (h : exn -> M S A) : M S A :=
  fun s =>
    match c s with
    | (s', Ok a) => (s', Ok a)
    | (s', Raise e) => h e s'
    end.

Definition lift_result {S A} (r : result A) : M S A := fun s => (s, r).

Declare Scope py_scope.
Delimit Scope py_scope with py.
Notation "'let!' x ':=' c 'in' k" := (bind c (fun x => k))
  (at level 10, x name, c at level 100, k at level 200) : py_scope.
Notation "'do!' c 'in' k" := (bind c (fun _ => k))
  (at level 10, c at level 100, k at level 200) : py_scope.

Fixpoint mapM {S A B} (f : A -> M S B) (l : list A) : M S (list B) :=
  match l with
  | [] => ret []
  | x :: l' => (let! y := f x in let! ys := mapM f l' in ret (y :: ys))%py
  end.

(** ** The connection pool and the world *)

Definition conn : Type := nat.
Definition cursor : Type := nat.

(** The pool keeps its idle connections in [free] and those checked out
    in [used]. *)
Record Pool : Type := mkPool { free : list conn; used : list conn }.

(** [pool.acquire()] hands out the first idle connection.  An empty
    [free] stands for every way in which no connection is handed out. *)
Definition acquire (p : Pool) : result (conn * Pool) :=
  match free p with
  | c :: rest => Ok (c, mkPool rest (c :: used p))
  | [] => Raise (Error "cannot acquire a connection")
  end.

Fixpoint remove_first (c : conn) (l : list conn) : list conn :=
  match l with
  | [] => []
  | c' :: l' => if Nat.eqb c c' then l' else c' :: remove_first c l'
  end.

(** [pool.release(conn)] *)
Definition release (c : conn) (p : Pool) : Pool :=
  mkPool (free p ++ [c])%list (remove_first c (used p)).

Section Runtime.

(** The state of the database engine, and the operations of the driver
    on it.  A failing operation may still have changed the engine. *)
Context {DB : Type}.

Record Host : Type := mkHost {
  (* [template % tuple(args)] *)
  py_format : string -> list value -> result string;
  (* [conn.cursor(aiomysql.DictCursor)] *)
  conn_cursor : conn -> DB -> DB * result cursor;
  (* [cur.execute(sql, args)] *)
  cur_execute : cursor -> string -> list value -> DB -> DB * result unit;
  (* [cur.fetchmany(n)] *)
  cur_fetchmany : cursor -> Z -> DB -> DB * result (list value);
  (* [cur.fetchall()] *)
  cur_fetchall : cursor -> DB -> DB * result (list value);
  (* [cur.rowcount] *)
  cur_rowcount : cursor -> DB -> Z;
  (* [cur.close()] *)
  cur_close : cursor -> DB -> DB * result unit
}.

Record World : Type := mkWorld {
  pool : Pool;             (* the global [__pool] *)
  db : DB;
  logs : list LogRecord    (* what the root logger has emitted *)
}.

Definition set_pool (p : Pool) (w : World) : World := mkWorld p (db w) (logs w).

Definition on_db {A} (op : DB -> DB * result A) : M World A :=
  fun w => let (d, r) := op (db w) in (mkWorld (pool w) d (logs w), r).

Definition add_log (l : level) (m : logmsg) (w : World) : World :=
  mkWorld (pool w) (db w) (logs w ++ [mkLog l m])%list.

Definition emit (l : level) (m : logmsg) : M World unit :=
  fun w => (add_log l m w, Ok tt).

Definition logging_info (s : string) : M World unit := emit INFO (Text s).
Definition logging_warning (s : string) : M World unit := emit WARNING (Text s).
Definition logging_error (e : exn) : M World unit := emit ERROR (Exc e).

(** [async with __pool.acquire() as conn: body]: the connection is
    released when the block is left, whichever way. *)
Definition async_with_acquire {A} (body : conn -> M World A) : M World A :=
  fun w =>
    match acquire (pool w) with
    | Raise e => (w, Raise e)
    | Ok (c, p) =>
        let (w', r) := body c (set_pool p w) in
        (set_pool (release c (pool w')) w', r)
    end.

Variable host : Host.

(** ** The SQL executor *)

(** What [executeSql] returns: the rows in select mode, the affected-row
    count otherwise. *)
Definition exec_ret (select : bool) : Type := if select then list value else Z.

(** [args or ()] *)
Definition args_or_empty (args : list value) : list value :=
  match args with [] => [] | _ => args end.

(** [if limit:] *)
Definition limit_truthy (limit : option Z) : option Z :=
  match limit with
  | Some n => if Z.eqb n 0 then None else Some n
  | None => None
  end.

Definition str_of_Z (n : Z) : string := pretty n.

Definition executeSql (sql : string) (args : list value) (select : bool)
    (limit : option Z) : M World (exec_ret select) :=
  (let! text := lift_result (py_format host (replace_qmark sql) args) in
   do! logging_info text in
   async_with_acquire (fun conn =>
     let! cur := on_db (conn_cursor host conn) in
     match select return M World (exec_ret select) with
     | true =>
         do! on_db (cur_execute host cur (replace_qmark sql) (args_or_empty args)) in
         let! result :=
           match limit_truthy limit with
           | Some n =>
               let! result := on_db (cur_fetchmany host cur n) in
               do! logging_info ("rows returned: " +:+ str_of_Z (Z.of_nat (length result))) in
               ret result
           | None =>
               let! result := on_db (cur_fetchall host cur) in
               do! logging_info ("rows returned: " +:+ str_of_Z (Z.of_nat (length result))) in
               ret result
           end in
         do! logging_info "closing cursor..." in
         do! on_db (cur_close host cur) in
         ret result
     | false =>
         do! on_db (cur_execute host cur (replace_qmark sql) args) in
         let! affected := (fun w => (w, Ok (cur_rowcount host cur (db w)))) in
         do! logging_info ("rows affected: " +:+ str_of_Z affected) in
         do! logging_info "closing cursor..." in
         do! on_db (cur_close host cur) in
         ret affected
     end))%py.

End Runtime.
Arguments Host : clear implicits.
Arguments World : clear implicits.

(** ** The record entity *)

Module Model.
Section Model.

Context {DB : Type}.
Variable host : Host DB.

(** What ordinary attribute lookup finds on an instance through [dict]
    and [object], and whatever else Python gives every class. *)
Variable inherited : string -> option value.

(** A [Model] instance is a [dict]: column name to value. *)
Definition __init__ (kw : list (string * value)) : gmap string value :=
  list_to_map kw.

(** [__getattr__] is the hook Python calls when ordinary lookup finds
    nothing under the name. *)
Definition __getattr__ (self : gmap string value) (key : string) : result value :=
  match self !! key with
  | Some v => Ok v
  | None => Raise (AttributeError ("'Model' object has no attribute '" +:+ key +:+ "'"))
  end.

Definition __setattr__ (self : gmap string value) (key : string) (v : value)
    : gmap string value :=
  <[key := v]> self.

(** The names [class Model] defines: on an instance each is a bound
    method. *)
Definition Model_methods : list string :=
  [ "__init__"; "__getattr__"; "__setattr__"; "getValue"; "getValueOrDefault";
    "find"; "findAll"; "findCount"; "save"; "update"; "remove" ].

Definition Model_attribute (key : string) : option value :=
  if bool_decide (key ∈ Model_methods) then Some (VObject "method" key) else None.

(** Ordinary lookup on an instance of [cls]: the class's own dictionary,
    then [Model], then [dict] and [object].  The instance's [__dict__]
    is empty, since [__setattr__] writes to the mapping.  The entries of
    a class body are data (strings, [Field] instances, plain objects):
    none has a [__get__], so the lookup returns the entry itself. *)
Definition class_lookup (cls : Schema) (key : string) : option value :=
  match dict_get key (namespace cls) with
  | Some v => Some v
  | None =>
      match Model_attribute key with
      | Some v => Some v
      | None => inherited key
      end
  end.

(** [self.key]: ordinary lookup, then the hook. *)
Definition attribute (cls : Schema) (self : gmap string value) (key : string)
    : result value :=
  match class_lookup cls key with
  | Some v => Ok v
  | None => __getattr__ self key
  end.

(** [getattr(self, key, default)] *)
Definition getattr (cls : Schema) (self : gmap string value) (key : string)
    (default : value) : result value :=
  match attribute cls self key with
  | Ok v => Ok v
  | Raise (AttributeError _) => Ok default
  | Raise e => Raise e
  end.

Definition getValue (cls : Schema) (self : gmap string value) (key : string)
    : result value :=
  getattr cls self key VNone.

(** [field.default() if callable(field.default) else field.default] *)
Definition default_value (d : default_) : result value :=
  match d with
  | Factory f => f tt
  | Literal v => Ok v
  end.

(** The [logging.debug] call is below the configured level [INFO] and
    emits nothing. *)
Definition getValueOrDefault (cls : Schema) (key : string)
    : M (gmap string value) value :=
  fun self =>
    match getattr cls self key VNone with
    | Raise e => (self, Raise e)
    | Ok value =>
        if is_None value then
          match dict_get key (__mappings__ cls) with
          | None => (self, Raise (KeyError key))
          | Some field =>
              if negb (default_is_None (Field.default field)) then
                match default_value (Field.default field) with
                | Raise e => (self, Raise e)
                | Ok value => (__setattr__ self key value, Ok value)
                end
              else (self, Ok value)
          end
        else (self, Ok value)
    end.

(** [if where:] *)
Definition where_truthy (where_ : option string) : option string :=
  match where_ with
  | Some s => if str_truthy s then Some s else None
  | None => None
  end.

Definition find (cls : Schema) (pk : value) : M (World DB) value :=
  (let! result :=
     executeSql host (__select__ cls +:+ " where " +:+ __primary_key__ cls +:+ "= ?")
       [pk] true (Some 1) in
   if Nat.eqb (length result) 0 then ret VNone else ret (VList result))%py.

Definition findAll (cls : Schema) (where_ : option string) (limit : option Z)
    : M (World DB) value :=
  (let! result :=
     match where_truthy where_ with
     | Some w => executeSql host (__select__ cls +:+ " where " +:+ w) [] true limit
     | None => executeSql host (__select__ cls) [] true limit
     end in
   if Nat.eqb (length result) 0 then ret VNone else ret (VList result))%py.

Definition findCount (cls : Schema) (where_ : option string) (limit : option Z)
    : M (World DB) value :=
  (let! result := findAll cls where_ limit in
   let! n := lift_result (py_len result) in
   ret (VInt n))%py.

(** The instance methods act on [self] and on the world. *)
Definition on_self {A} (c : M (gmap string value) A)
    : M (gmap string value * World DB) A :=
  fun s => let (self', r) := c (fst s) in ((self', snd s), r).

Definition on_world {A} (c : M (World DB) A)
    : M (gmap string value * World DB) A :=
  fun s => let (w', r) := c (snd s) in ((fst s, w'), r).

(** [list(map(self.getValueOrDefault, self.__fields__))] followed by
    [args.append(self.getValueOrDefault(self.__primary_key__))] *)
Definition resolve_args (cls : Schema) : M (gmap string value) (list value) :=
  (let! args := mapM (getValueOrDefault cls) (__fields__ cls) in
   let! pk := getValueOrDefault cls (__primary_key__ cls) in
   ret (args ++ [pk])%list)%py.

Definition save (cls : Schema) : M (gmap string value * World DB) value :=
  (let! args := on_self (resolve_args cls) in
   try_except
     (let! result := on_world (executeSql host (__insert__ cls) args false None) in
      if negb (Z.eqb result 1) then
        do! on_world (logging_warning
               ("failed to insert record. affected rows: " +:+ str_of_Z result)) in
        ret VNone
      else ret VNone)
     (fun e => do! on_world (logging_error e) in ret VNone))%py.

Definition update (cls : Schema) : M (gmap string value * World DB) value :=
  (let! args := on_self (resolve_args cls) in
   let! result := on_world (executeSql host (__update__ cls) args false None) in
   if negb (Z.eqb result 1) then
     do! on_world (logging_warning
            ("failed to update record. affected rows: " +:+ str_of_Z result)) in
     ret VNone
   else ret VNone)%py.

Definition remove (cls : Schema) (primary : value) : M (World DB) value :=
  (let! result := executeSql host (__delete__ cls) [primary] false None in
   if negb (Z.eqb result 1) then
     do! logging_warning
            ("failed to remove record. affected rows: " +:+ str_of_Z result) in
     ret VNone
   else ret VNone)%py.

End Model.
End Model.

(** ** Reading a class declaration

    The vocabulary of the statements below: the fields a class body
    declares, in declaration order. *)

Fixpoint field_items (attrs : list (string * attr)) : list (string * Field.t) :=
  match attrs with
  | [] => []
  | (k, AField f) :: rest => (k, f) :: field_items rest
  | _ :: rest => field_items rest
  end.

(** The keys of the fields marked primary key. *)
Fixpoint pk_keys (attrs : list (string * attr)) : list string :=
  match attrs with
  | [] => []
  | (k, AField f) :: rest =>
      if Field.primary_key f then k :: pk_keys rest else pk_keys rest
  | _ :: rest => pk_keys rest
  end.

(** The fields not marked primary key, and their keys. *)
Fixpoint nonkey_fields (attrs : list (string * attr)) : list (string * Field.t) :=
  match attrs with
  | [] => []
  | (k, AField f) :: rest =>
      if Field.primary_key f then nonkey_fields rest else (k, f) :: nonkey_fields rest
  | _ :: rest => nonkey_fields rest
  end.

Definition nonkey_keys (attrs : list (string * attr)) : list string :=
  map fst (nonkey_fields attrs).

(** A table declaration is a class statement deriving from [Model]: its
    name is not that of the base class, which the metaclass leaves
    alone, and its body is a dictionary whose keys are identifiers,
    hence distinct and non-empty. *)
Definition table_declaration (name : string) (attrs : list (string * attr)) : Prop :=
  name <> "Model" /\ NoDup (dict_keys attrs) /\ Forall (fun k => k <> "") (dict_keys attrs).

(** ** A scripted engine

    A driver whose answers are fixed in advance: statements succeed
    unless [failure] is set, fetches return [rows], and the affected-row
    count is [affected]. *)
Record Script : Type := mkScript {
  rows : list value;
  affected : Z;
  failure : option exn
}.

Definition scalar_str (v : value) : string :=
  match v with
  | VNone => "None"
  | VBool true => "True"
  | VBool false => "False"
  | VInt z => pretty z
  | VStr s => s
  | VList _ => "[...]"
  | VDict _ => "{...}"
  | VObject _ w => w
  end.

(** [%s] conversions only, which are all [executeSql] produces. *)
Fixpoint format_s (s : string) (args : list value) : result string :=
  match s with
  | EmptyString =>
      match args with
      | [] => Ok EmptyString
      | _ => Raise (TypeError "not all arguments converted during string formatting")
      end
  | String c s' =>
      match s' with
      | String c' s'' =>
          if Ascii.eqb c "%"%char && Ascii.eqb c' "s"%char then
            match args with
            | [] => Raise (TypeError "not enough arguments for format string")
            | a :: args' =>
                match format_s s'' args' with
                | Ok r => Ok (scalar_str a +:+ r)
                | Raise e => Raise e
                end
            end
          else
            match format_s s' args with
            | Ok r => Ok (String c r)
            | Raise e => Raise e
            end
      | EmptyString =>
          match args with
          | [] => Ok (String c EmptyString)
          | _ => Raise (TypeError "not all arguments converted during string formatting")
          end
      end
  end.

Definition scripted : Host Script := {|
  py_format := format_s;
  conn_cursor := fun _ d => (d, Ok 0%nat);
  cur_execute := fun _ _ _ d =>
    match failure d with
    | Some e => (d, Raise e)
    | None => (d, Ok tt)
    end;
  cur_fetchmany := fun _ n d => (d, Ok (firstn (Z.to_nat n) (rows d)));
  cur_fetchall := fun _ d => (d, Ok (rows d));
  cur_rowcount := fun _ d => affected d;
  cur_close := fun _ d => (d, Ok tt)
|}.

Definition world0 (d : Script) : World Script :=
  {| pool := mkPool [1%nat; 2%nat] []; db := d; logs := [] |}.

(** The compiled class [Student]. *)
Definition Student : Schema :=
  Eval vm_compute in
    match snd (ModelMetaclass.__new__ "Student" Student_attrs) with
    | Ok (Table s) => s
    | _ => mkSchema "" [] "" "" [] "" "" "" "" []
    end.

Definition row02 : value :=
  VDict [("SId", VStr "02"); ("Sname", VStr "X"); ("Sage", VStr "1990"); ("Ssex", VStr "F")].

Import ModelMetaclass.

(** The dictionary [mappings] after the loop. *)
Definition collect (items : list (string * attr)) (m : list (string * Field.t))
    : list (string * Field.t) :=
  fold_left (fun m kf => dict_set (fst kf) (snd kf) m) (field_items items) m.

(** [lambda f: ...] of the UPDATE template, on the fields of the class. *)
Definition set_clause (kf : string * Field.t) : string :=
  "`" +:+ name_or (Field.name (snd kf)) (fst kf) +:+ "`=?".

(** The class [__new__] builds from a scan that found [primaryKey]. *)
Definition compiled (name : string) (attrs : list (string * attr))
    (primaryKey : string) (sets : list string) : Schema :=
  let tableName := table_name name attrs in
  let escaped_fields := map backtick (nonkey_keys attrs) in
  let select_ :=
    "select `" +:+ primaryKey +:+ "`, " +:+ join ", " escaped_fields
      +:+ " from `" +:+ tableName +:+ "`" in
  let insert_ :=
    "insert into `" +:+ tableName +:+ "` (" +:+ join ", " escaped_fields
      +:+ ", `" +:+ primaryKey +:+ "`) values ("
      +:+ join ", " (chars (str_mul "?" (length escaped_fields + 1))) +:+ ")" in
  let update_ :=
    "update `" +:+ tableName +:+ "` set " +:+ join ", " sets
      +:+ " where `" +:+ primaryKey +:+ "`=?" in
  let delete_ :=
    "delete from `" +:+ tableName +:+ "` where `" +:+ primaryKey +:+ "`=?" in
  {| __name__ := name;
     __mappings__ := collect attrs [];
     __table__ := tableName;
     __primary_key__ := primaryKey;
     __fields__ := nonkey_keys attrs;
     __select__ := select_;
     __insert__ := insert_;
     __update__ := update_;
     __delete__ := delete_;
     namespace :=
       store_all
         [ ("__mappings__",
            VDict (map (fun kf => (fst kf, field_object (snd kf))) (collect attrs [])));
           ("__table__", table_object name attrs);
           ("__primary_key__", VStr primaryKey);
           ("__fields__", VList (map VStr (nonkey_keys attrs)));
           ("__select__", VStr select_);
           ("__insert__", VStr insert_);
           ("__update__", VStr update_);
           ("__delete__", VStr delete_) ]
         (map (fun ka => (fst ka, attr_value (snd ka)))
            (fold_left (fun a k => dict_pop k a) (dict_keys (collect attrs [])) attrs))
  |}.

(** The SET-clause column of the field declared under [k], in the words
    of the specification: the field's own name when it has one, else the
    declaration key. *)
Definition stated_column (k : string) (f : Field.t) : string :=
  match Field.name f with
  | Some n => n
  | None => k
  end.

(** The same, an empty name counting as none. *)
Definition column_name (k : string) (f : Field.t) : string :=
  match Field.name f with
  | Some n => if decide (n = "") then k else n
  | None => k
  end.

(** [update <table> set <f1>=?, ..., <fn>=? where <pk>=?] for a choice of
    column names. *)
Definition update_form (column : string -> Field.t -> string) (table : string)
    (fields : list (string * Field.t)) (pk : string) : string :=
  "update `" +:+ table +:+ "` set "
    +:+ join ", " (map (fun kf => "`" +:+ column (fst kf) (snd kf) +:+ "`=?") fields)
    +:+ " where `" +:+ pk +:+ "`=?".

(** A table whose field [title] is given the empty string as its name. *)
Definition Blog_attrs : list (string * attr) :=
  [ ("id", AField (IntegerField None true (Literal (VInt 0))));
    ("title", AField (StringField (Some "") false (Literal VNone) "varchar(100)"));
    ("body", AField (TextField (Some "content") (Literal VNone))) ].

(** What [find] returns according to the specification: absent for no
    row, else the first row. *)
Definition stated_find_result (rows : list value) : value :=
  match rows with
  | [] => VNone
  | r :: _ => r
  end.

(** The effective value of a field in the words of the specification:
    the attribute when it is set and not [None], else the default, called
    when it is callable (and then possibly raising) and taken as it is
    otherwise. *)
Definition effective_value (fld : Field.t) (attribute : option value) : result value :=
  match attribute with
  | Some VNone | None =>
      match Field.default fld with
      | Factory factory => factory tt
      | Literal literal => Ok literal
      end
  | Some v => Ok v
  end.

(** Whether the attribute is unset or [None], so that the default is
    consulted. *)
Definition consults_default (attribute : option value) : bool :=
  match attribute with
  | Some v => is_None v
  | None => true
  end.

(** The pool holds the same connections as before: none is checked out
    that was not, and the idle ones are the same. *)
Definition returned_to_pool (before after : Pool) : Prop :=
  used after = used before /\ Permutation (free after) (free before).

(** The line logged for a field found in the class body. *)
Definition found_mapping (kf : string * Field.t) : LogRecord :=
  mkLog INFO (Text ("  found mapping: " +:+ fst kf +:+ " ==> " +:+ Field.__str__ (snd kf))).

(** The entries of a class body that are not [Field] instances. *)
Fixpoint non_field_items (attrs : list (string * attr)) : list (string * attr) :=
  match attrs with
  | [] => []
  | (k, AField f) :: rest => non_field_items rest
  | ka :: rest => ka :: non_field_items rest
  end.

(** The number of ['?'] in a string: the placeholders [executeSql]
    rewrites to ['%s']. *)
Fixpoint count_qmark (s : string) : nat :=
  match s with
  | EmptyString => O
  | String c s' => ((if Ascii.eqb c "?"%char then 1 else 0) + count_qmark s')%nat
  end.

(** The value resolved for the key [k] on the record [self]: the
    effective value of the field declared under [k]. *)
Definition declared_value (cls : Schema) (self : gmap string value) (k : string)
    : result value :=
  match dict_get k (__mappings__ cls) with
  | Some fld => effective_value fld (self !! k)
  | None =>
      match self !! k with
      | Some VNone | None => Raise (KeyError k)
      | Some v => Ok v
      end
  end.

(** No default of the class raises. *)
Definition factories_return (cls : Schema) : Prop :=
  forall k fld f,
    dict_get k (__mappings__ cls) = Some fld ->
    Field.default fld = Factory f ->
    exists v, f tt = Ok v.

(** The names the metaclass stores on a compiled class. *)
Definition generated_names : list string :=
  [ "__mappings__"; "__table__"; "__primary_key__"; "__fields__";
    "__select__"; "__insert__"; "__update__"; "__delete__" ].

(** The public methods of [dict], standing for what an instance inherits
    from [dict] and [object]. *)
Definition dict_methods (key : string) : option value :=
  if bool_decide (key ∈ [ "clear"; "copy"; "fromkeys"; "get"; "items"; "keys";
                           "pop"; "popitem"; "setdefault"; "values" ])
  then Some (VObject "builtin_function_or_method" key) else None.

(** The scripted driver, except that fetching all rows raises [e]. *)
Definition scripted_fetch_error (e : exn) : Host Script := {|
  py_format := py_format scripted;
  conn_cursor := conn_cursor scripted;
  cur_execute := cur_execute scripted;
  cur_fetchmany := cur_fetchmany scripted;
  cur_fetchall := fun _ d => (d, Raise e);
  cur_rowcount := cur_rowcount scripted;
  cur_close := cur_close scripted
|}.

(** A table whose primary key takes its default from a factory that
    raises. *)
Definition Ticket_attrs : list (string * attr) :=
  [ ("id", AField (StringField None true
                     (Factory (fun _ => Raise (RuntimeError "no identifier available")))
                     "varchar(50)"));
    ("title", AField (StringField None false (Literal VNone) "varchar(100)")) ].

Definition Ticket : Schema :=
  Eval vm_compute in
    match snd (ModelMetaclass.__new__ "Ticket" Ticket_attrs) with
    | Ok (Table s) => s
    | _ => mkSchema "" [] "" "" [] "" "" "" "" []
    end.

(** A table with a column named as a method of [Model]. *)
Definition Job_attrs : list (string * attr) :=
  [ ("id", AField (IntegerField None true (Literal (VInt 0))));
    ("update", AField (StringField None false (Literal (VStr "never")) "varchar(100)")) ].

Definition Job : Schema :=
  Eval vm_compute in
    match snd (ModelMetaclass.__new__ "Job" Job_attrs) with
    | Ok (Table s) => s
    | _ => mkSchema "" [] "" "" [] "" "" "" "" []
    end.

(** Attribute access as the specification states it (C10), for any key. *)
Definition stated_attribute_access (inherited : string -> option value) (cls : Schema)
    (r : gmap string value) (k : string) (v : value) : Prop :=
  Model.__setattr__ r k v !! k = Some v
  /\ Model.attribute inherited cls (Model.__setattr__ r k v) k = Ok v
  /\ (r !! k = None ->
        Model.attribute inherited cls r k =
          Raise (AttributeError ("'Model' object has no attribute '" +:+ k +:+ "'")))
  /\ (r !! k = None -> Model.getValue inherited cls r k = Ok VNone).

(** The effective value as the specification states it (C6), for any
    declared field: it is resolved, and it is cached on the instance. *)
Definition stated_effective_value (inherited : string -> option value) (cls : Schema)
    (key : string) (fld : Field.t) (self : gmap string value) : Prop :=
  snd (Model.getValueOrDefault inherited cls key self) = effective_value fld (self !! key)
  /\ forall v, effective_value fld (self !! key) = Ok v ->
       fst (Model.getValueOrDefault inherited cls key self) !! key = Some v.

(** None of the columns of the class is a name ordinary lookup finds
    on it: a read of the column reaches the mapping. *)
Definition unshadowed (inherited : string -> option value) (cls : Schema) : Prop :=
  forall k, In k (__fields__ cls ++ [__primary_key__ cls]) ->
    Model.class_lookup inherited cls k = None.

(** A computation that leaves the pool alone. *)
Definition keeps_pool {DB A} (c : M (World DB) A) : Prop :=
  forall w, pool (fst (c w)) = pool w.

(** * Properties *)

(** ** Dictionaries *)

Lemma dict_get_set_eq {V} (k : string) (v : V) d : dict_get k (dict_set k v d) = Some v.
Proof.
  induction d as [|[k' v'] d IH]; simpl.
  - by rewrite String.eqb_refl.
  - destruct (String.eqb k k') eqn:E; simpl; rewrite ?String.eqb_refl, ?E; done.
Qed.

Lemma dict_get_set_ne {V} (k k' : string) (v : V) d :
  k <> k' -> dict_get k' (dict_set k v d) = dict_get k' d.
Proof.
  intros Hne. induction d as [|[k0 v0] d IH]; simpl.
  - destruct (String.eqb_spec k' k); congruence.
  - destruct (String.eqb_spec k k0) as [->|Hk]; simpl.
    + destruct (String.eqb_spec k' k0); congruence.
    + destruct (String.eqb_spec k' k0); congruence.
Qed.

Lemma dict_get_set_mono {V} (k k' : string) (v : V) d :
  dict_get k' d <> None -> dict_get k' (dict_set k v d) <> None.
Proof.
  intros H. destruct (String.eqb_spec k k') as [->|Hne].
  - by rewrite dict_get_set_eq.
  - by rewrite dict_get_set_ne.
Qed.

Lemma dict_get_None {V} (k : string) (d : list (string * V)) :
  ~ In k (dict_keys d) -> dict_get k d = None.
Proof.
  induction d as [|[k' v'] d IH]; simpl; [done|].
  intros H. destruct (String.eqb_spec k k') as [->|Hne]; [tauto|].
  apply IH. tauto.
Qed.

Lemma dict_set_fresh {V} (k : string) (v : V) d :
  ~ In k (dict_keys d) -> dict_set k v d = (d ++ [(k, v)])%list.
Proof.
  induction d as [|[k' v'] d IH]; simpl; [done|].
  intros H. destruct (String.eqb_spec k k') as [->|Hne]; [tauto|].
  rewrite IH; [done|tauto].
Qed.

Lemma dict_get_In {V} (k : string) (v : V) d :
  NoDup (dict_keys d) -> In (k, v) d -> dict_get k d = Some v.
Proof.
  induction d as [|[k' v'] d IH]; simpl; [done|].
  intros Hnd [Heq|Hin].
  - inversion Heq; subst. by rewrite String.eqb_refl.
  - apply NoDup_cons in Hnd as [Hk Hnd].
    destruct (String.eqb_spec k k') as [->|Hne].
    + exfalso. apply Hk. apply list_elem_of_In.
      change k' with (fst (k', v)). by apply in_map.
    + by apply IH.
Qed.

(** ** The loop of the schema compiler *)

Lemma pk_truthy_Some (k : string) : k <> "" -> pk_truthy (Some k) = true.
Proof. by destruct k. Qed.

(** Without a primary-key field the loop runs to its end and leaves
    [primaryKey] as it was. *)
Lemma scan_no_pk items st logs :
  pk_keys items = [] ->
  snd (scan items st logs) =
    Ok (mkScan (collect items (mappings st)) (fields st ++ nonkey_keys items)%list
          (primaryKey st)).
Proof.
  unfold nonkey_keys, collect.
  revert st logs. induction items as [|[k a] items IH]; intros st logs Hpk.
  - simpl. rewrite app_nil_r. by destruct st.
  - destruct a as [f| |]; simpl in *; try by apply IH.
    destruct (Field.primary_key f); [done|].
    rewrite IH by done. simpl. by rewrite <- app_assoc.
Qed.

(** Once a primary key is recorded, the next field marked primary key
    stops the loop. *)
Lemma scan_duplicate items st logs k ks :
  pk_truthy (primaryKey st) = true ->
  pk_keys items = k :: ks ->
  snd (scan items st logs) =
    Raise (RuntimeError ("Duplicate primary key for field: " +:+ k)).
Proof.
  revert st logs. induction items as [|[k' a] items IH]; intros st logs Ht Hpk.
  - done.
  - destruct a as [f| |]; simpl in *; try by apply IH.
    destruct (Field.primary_key f).
    + rewrite Ht. simpl. congruence.
    + by apply IH.
Qed.

(** The first field marked primary key is recorded; a second one is an
    error, whatever follows. *)
Lemma scan_first_pk items st logs k ks :
  pk_truthy (primaryKey st) = false ->
  pk_keys items = k :: ks ->
  k <> "" ->
  snd (scan items st logs) =
    match ks with
    | [] => Ok (mkScan (collect items (mappings st))
                  (fields st ++ nonkey_keys items)%list (Some k))
    | k2 :: _ => Raise (RuntimeError ("Duplicate primary key for field: " +:+ k2))
    end.
Proof.
  revert st logs. induction items as [|[k' a] items IH]; intros st logs Ht Hpk Hk.
  - done.
  - destruct a as [f| |]; simpl in *; try by apply IH.
    destruct (Field.primary_key f) eqn:Ef.
    + rewrite Ht. injection Hpk as -> Hks.
      destruct ks as [|k2 ks'].
      * rewrite scan_no_pk by done. unfold collect, nonkey_keys. simpl.
        by rewrite Ef.
      * erewrite scan_duplicate; [done| |done]. simpl. by apply pk_truthy_Some.
    + rewrite IH by done. destruct ks; [|done].
      unfold collect, nonkey_keys. simpl. rewrite Ef. simpl.
      by rewrite <- app_assoc.
Qed.

(** Every key the loop has put in [fields] is a key of [mappings]. *)
Lemma collect_mono items m k :
  dict_get k m <> None -> dict_get k (collect items m) <> None.
Proof.
  unfold collect. revert m.
  induction (field_items items) as [|[k' f] l IH]; intros m H; simpl; [done|].
  apply IH. by apply dict_get_set_mono.
Qed.

Lemma collect_nonkey items m k :
  In k (nonkey_keys items) -> dict_get k (collect items m) <> None.
Proof.
  unfold nonkey_keys. revert m.
  induction items as [|[k' a] items IH]; intros m Hin; simpl in *; [done|].
  destruct a as [f| |]; try by apply IH.
  unfold collect in *. simpl.
  destruct (Field.primary_key f).
  - by apply IH.
  - destruct Hin as [<-|Hin]; [|by apply IH].
    apply (collect_mono items). by rewrite dict_get_set_eq.
Qed.

Lemma collect_pk items m k :
  In k (pk_keys items) -> dict_get k (collect items m) <> None.
Proof.
  revert m.
  induction items as [|[k' a] items IH]; intros m Hin; simpl in *; [done|].
  destruct a as [f| |]; try by apply IH.
  unfold collect in *. simpl.
  destruct (Field.primary_key f).
  - destruct Hin as [<-|Hin]; [|by apply IH].
    apply (collect_mono items). by rewrite dict_get_set_eq.
  - by apply IH.
Qed.

(** In a dictionary the loop stores each field under its own key. *)
Lemma field_items_keys items k f :
  In (k, f) (field_items items) -> In k (dict_keys items).
Proof.
  induction items as [|[k' a] items IH]; simpl; [done|].
  destruct a; simpl; intros H; try (right; by apply IH).
  destruct H as [H|H]; [left; congruence|right; by apply IH].
Qed.

Lemma field_items_NoDup items :
  NoDup (dict_keys items) -> NoDup (dict_keys (field_items items)).
Proof.
  induction items as [|[k a] items IH]; simpl; intros H; [constructor|].
  apply NoDup_cons in H as [Hk H].
  destruct a; simpl; try by apply IH.
  apply NoDup_cons. split; [|by apply IH].
  intros Hin. apply Hk. apply list_elem_of_In. apply list_elem_of_In in Hin.
  unfold dict_keys in Hin. apply in_map_iff in Hin as [[k' f'] [Heq Hin]].
  simpl in Heq; subst. by apply field_items_keys in Hin.
Qed.

Lemma fold_dict_set_fresh (l m : list (string * Field.t)) :
  NoDup (dict_keys (m ++ l)) ->
  fold_left (fun m kf => dict_set (fst kf) (snd kf) m) l m = (m ++ l)%list.
Proof.
  revert m. induction l as [|[k f] l IH]; intros m Hnd; simpl.
  - by rewrite app_nil_r.
  - assert (Hfresh : ~ In k (dict_keys m)).
    { unfold dict_keys in *. rewrite map_app in Hnd. simpl in Hnd.
      apply NoDup_app in Hnd as (_ & Hdisj & _).
      intros Hin. apply (Hdisj k); [by apply list_elem_of_In|left]. }
    rewrite dict_set_fresh by done.
    rewrite IH; rewrite <- app_assoc; done.
Qed.

Lemma collect_NoDup items :
  NoDup (dict_keys items) -> collect items [] = field_items items.
Proof.
  intros H. unfold collect. rewrite fold_dict_set_fresh; [done|].
  simpl. by apply field_items_NoDup.
Qed.

Lemma nonkey_fields_items items k f :
  In (k, f) (nonkey_fields items) -> In (k, f) (field_items items).
Proof.
  induction items as [|[k' a] items IH]; simpl; [done|].
  destruct a as [f'| |]; try done.
  destruct (Field.primary_key f'); simpl; [by right; apply IH|].
  intros [H|H]; [by left|right; by apply IH].
Qed.

Lemma map_result_set_item (m : list (string * Field.t)) (l : list (string * Field.t)) :
  (forall k f, In (k, f) l -> dict_get k m = Some f) ->
  map_result (set_item m) (map fst l) = Ok (map set_clause l).
Proof.
  induction l as [|[k f] l IH]; intros H; simpl; [done|].
  unfold set_item at 1. rewrite (H k f) by (by left).
  rewrite IH; [done|]. intros k' f' Hin. apply H. by right.
Qed.

Lemma map_result_set_item_ok (m : list (string * Field.t)) (l : list string) :
  (forall k, In k l -> dict_get k m <> None) ->
  exists sets, map_result (set_item m) l = Ok sets.
Proof.
  induction l as [|k l IH]; intros H; simpl; [by eexists|].
  unfold set_item at 1. destruct (dict_get k m) eqn:E; [|by destruct (H k); [left|]].
  destruct IH as [sets ->]; [|by eexists]. intros k' Hin. apply H. by right.
Qed.

Lemma scan_ok_inv items st logs st' :
  snd (scan items st logs) = Ok st' ->
  mappings st' = collect items (mappings st) /\
  fields st' = (fields st ++ nonkey_keys items)%list /\
  (primaryKey st' = primaryKey st \/ exists k, primaryKey st' = Some k /\ In k (pk_keys items)).
Proof.
  unfold collect, nonkey_keys.
  revert st logs. induction items as [|[k a] items IH]; intros st logs H.
  - simpl in *. injection H as <-. rewrite app_nil_r. auto.
  - destruct a as [f| |]; simpl in *; try by apply IH in H.
    destruct (Field.primary_key f).
    + destruct (pk_truthy (primaryKey st)); [done|].
      apply IH in H as (Hm & Hf & Hp). simpl in *. split_and!; [done..|].
      right. destruct Hp as [Hp|(k' & Hp & Hin)]; eauto.
    + apply IH in H as (Hm & Hf & Hp). simpl in *.
      rewrite <- app_assoc in Hf. split_and!; [done..|].
      destruct Hp as [Hp|(k' & Hp & Hin)]; eauto.
Qed.

Lemma new_Table_inv name attrs s :
  snd (__new__ name attrs) = Ok (Table s) ->
  exists pk sets,
    In pk (pk_keys attrs) /\
    map_result (set_item (collect attrs [])) (nonkey_keys attrs) = Ok sets /\
    s = compiled name attrs pk sets.
Proof.
  unfold __new__. destruct (String.eqb name "Model"); [done|].
  destruct (scan attrs _ _) as [logs [st|e]] eqn:Hscan; [|done].
  pose proof (f_equal snd Hscan) as Hsnd. simpl in Hsnd.
  apply scan_ok_inv in Hsnd as (Hm & Hf & Hp). simpl in *.
  destruct (primaryKey st) as [pk|] eqn:Hpk; [|done].
  destruct (str_truthy pk); [|done]. simpl.
  rewrite Hm, Hf.
  destruct (map_result _ _) as [sets|e] eqn:Hsets; [|done].
  simpl. intros [= <-]. exists pk, sets. split_and!; [|done..].
  destruct Hp as [Hp|(k & Hk & Hin)]; congruence.
Qed.

Lemma new_one_pk name attrs pk :
  name <> "Model" -> pk <> "" -> pk_keys attrs = [pk] ->
  exists sets,
    map_result (set_item (collect attrs [])) (nonkey_keys attrs) = Ok sets /\
    snd (__new__ name attrs) = Ok (Table (compiled name attrs pk sets)).
Proof.
  intros Hname Hpk Hkeys.
  destruct (map_result_set_item_ok (collect attrs []) (nonkey_keys attrs)) as [sets Hsets].
  { intros k Hin. by apply collect_nonkey. }
  exists sets. split; [done|].
  unfold __new__. apply String.eqb_neq in Hname. rewrite Hname.
  destruct (scan attrs _ _) as [logs r] eqn:Hscan.
  pose proof (f_equal snd Hscan) as Hsnd. simpl in Hsnd.
  rewrite (scan_first_pk _ _ _ pk []) in Hsnd by done. subst r. simpl.
  destruct pk; [done|]. simpl. by rewrite Hsets.
Qed.

Lemma pk_keys_dict_keys attrs k : In k (pk_keys attrs) -> In k (dict_keys attrs).
Proof.
  induction attrs as [|[k' a] attrs IH]; simpl; [done|].
  destruct a as [f| |]; try (right; by apply IH).
  destruct (Field.primary_key f); [|right; by apply IH].
  intros [H|H]; [by left|right; by apply IH].
Qed.

Lemma table_declaration_pk_nonempty name attrs k :
  table_declaration name attrs -> In k (pk_keys attrs) -> k <> "".
Proof.
  intros (_ & _ & Hne) Hin. rewrite Forall_forall in Hne. apply Hne.
  apply list_elem_of_In. by apply pk_keys_dict_keys.
Qed.

Lemma chars_str_mul (n : nat) : chars (str_mul "?" n) = repeat "?" n.
Proof. induction n as [|n IH]; [done|]. simpl. by f_equal. Qed.

(** The base class itself is not compiled. *)
Lemma new_Model_left_alone (attrs : list (string * attr)) :
  __new__ "Model" attrs = ([], Ok (Plain "Model" attrs)).
Proof. reflexivity. Qed.

(** The four templates of [Student]. *)
Example Student_templates :
  __select__ Student = "select `SId`, `Sname`, `Sage`, `Ssex` from `Student`"
  /\ __insert__ Student
       = "insert into `Student` (`Sname`, `Sage`, `Ssex`, `SId`) values (?, ?, ?, ?)"
  /\ __update__ Student
       = "update `Student` set `Sname`=?, `Sage`=?, `Ssex`=? where `SId`=?"
  /\ __delete__ Student = "delete from `Student` where `SId`=?".
Proof. repeat split. Qed.

Example replace_qmark_delete :
  replace_qmark (__delete__ Student) = "delete from `Student` where `SId`=%s".
Proof. reflexivity. Qed.

(** ** Schema compilation: the primary key *)

(** C4. For every table declaration, schema compilation raises the
    missing-primary-key error when no field is marked primary key, raises
    the duplicate-primary-key error when two or more are (it never picks
    one of them silently), and succeeds with exactly one, which becomes
    the primary key of the class. *)
Theorem schema_compilation_primary_key (name : string) (attrs : list (string * attr)) :
  table_declaration name attrs ->
  (pk_keys attrs = [] ->
     snd (__new__ name attrs) = Raise (RuntimeError "Primary key not found."))
  /\ (forall k1 k2 ks, pk_keys attrs = k1 :: k2 :: ks ->
        snd (__new__ name attrs) =
          Raise (RuntimeError ("Duplicate primary key for field: " +:+ k2)))
  /\ (forall k, pk_keys attrs = [k] ->
        exists s, snd (__new__ name attrs) = Ok (Table s) /\ __primary_key__ s = k).
Proof.
  intros Hdecl. pose proof Hdecl as (Hname & _ & _).
  apply String.eqb_neq in Hname. split_and!.
  - intros Hpk. unfold __new__. rewrite Hname.
    destruct (scan attrs _ _) as [logs r] eqn:Hscan.
    pose proof (f_equal snd Hscan) as Hsnd. simpl in Hsnd.
    rewrite scan_no_pk in Hsnd by done. by subst r.
  - intros k1 k2 ks Hpk. unfold __new__. rewrite Hname.
    destruct (scan attrs _ _) as [logs r] eqn:Hscan.
    pose proof (f_equal snd Hscan) as Hsnd. simpl in Hsnd.
    rewrite (scan_first_pk _ _ _ k1 (k2 :: ks)) in Hsnd; [by subst r|done..|].
    apply (table_declaration_pk_nonempty name attrs); [done|]. rewrite Hpk. by left.
  - intros k Hpk. apply String.eqb_neq in Hname.
    destruct (new_one_pk name attrs k) as (sets & _ & Hnew); [done| |done|].
    + apply (table_declaration_pk_nonempty name attrs); [done|]. rewrite Hpk. by left.
    + by eexists.
Qed.

Lemma Student_declaration : table_declaration "Student" Student_attrs.
Proof.
  split; [done|]. split.
  - apply (bool_decide_unpack _). vm_compute. exact I.
  - apply (bool_decide_unpack _). vm_compute. exact I.
Defined.

Lemma schema_compilation_primary_key_witness :
  table_declaration "Student" Student_attrs /\
  exists s, snd (__new__ "Student" Student_attrs) = Ok (Table s) /\ __primary_key__ s = "SId".
Proof.
  split; [exact Student_declaration|].
  exact (proj2 (proj2 (schema_compilation_primary_key _ _ Student_declaration)) "SId" eq_refl).
Defined.

(** ** Schema compilation: the INSERT template *)

(** C3. For every table declaration with exactly one primary-key field
    and N other fields, compilation succeeds and the INSERT template
    lists the N non-key columns in declaration order, then the primary
    key, and carries exactly N+1 placeholders. *)
Theorem insert_template_placeholders (name : string) (attrs : list (string * attr))
    (pk : string) :
  table_declaration name attrs ->
  pk_keys attrs = [pk] ->
  exists s,
    snd (__new__ name attrs) = Ok (Table s) /\
    __insert__ s =
      "insert into `" +:+ table_name name attrs +:+ "` ("
        +:+ join ", " (map backtick (nonkey_keys attrs))
        +:+ ", `" +:+ pk +:+ "`) values ("
        +:+ join ", " (repeat "?" (length (nonkey_keys attrs) + 1)) +:+ ")".
Proof.
  intros Hdecl Hpk. pose proof Hdecl as (Hname & _ & _).
  destruct (new_one_pk name attrs pk) as (sets & _ & Hnew); [done| |done|].
  { apply (table_declaration_pk_nonempty name attrs); [done|]. rewrite Hpk. by left. }
  eexists. split; [exact Hnew|]. cbn [__insert__ compiled].
  by rewrite chars_str_mul, length_map.
Qed.

Lemma insert_template_placeholders_witness :
  exists s,
    snd (__new__ "Student" Student_attrs) = Ok (Table s) /\
    __insert__ s =
      "insert into `Student` (`Sname`, `Sage`, `Ssex`, `SId`) values (?, ?, ?, ?)".
Proof.
  exact (insert_template_placeholders "Student" Student_attrs "SId"
           Student_declaration eq_refl).
Defined.

(** ** Schema compilation: the UPDATE template *)

Lemma name_or_column_name k f : name_or (Field.name f) k = column_name k f.
Proof.
  unfold name_or, column_name. destruct (Field.name f) as [n|]; [|done].
  destruct n; [done|]. by rewrite decide_False.
Qed.

(** C8, as amended. For every table declaration that compiles, the
    UPDATE template is [update <table> set <f1>=?, ..., <fn>=? where
    <pk>=?] over the non-key fields in declaration order, the column of
    each being the field's own name when that name is present and not
    empty, else the declaration key. *)
Theorem update_template_form (name : string) (attrs : list (string * attr)) (s : Schema) :
  NoDup (dict_keys attrs) ->
  snd (__new__ name attrs) = Ok (Table s) ->
  __update__ s =
    update_form column_name (table_name name attrs) (nonkey_fields attrs)
      (__primary_key__ s)
  /\ (forall k f n, Field.name f = Some n -> n <> "" -> column_name k f = n)
  /\ (forall k f, Field.name f = None \/ Field.name f = Some "" -> column_name k f = k).
Proof.
  intros Hnd Hnew. split_and!.
  - apply new_Table_inv in Hnew as (pk & sets & _ & Hsets & ->).
    unfold nonkey_keys in Hsets.
    rewrite map_result_set_item in Hsets.
    + injection Hsets as <-. cbn [__update__ __primary_key__ compiled].
      unfold update_form.
      replace (map set_clause (nonkey_fields attrs))
        with (map (fun kf => "`" +:+ column_name (fst kf) (snd kf) +:+ "`=?")
                (nonkey_fields attrs)); [done|].
      apply map_ext. intros [k f].
      unfold set_clause. simpl. by rewrite name_or_column_name.
    + intros k f Hin. rewrite collect_NoDup by done.
      apply dict_get_In; [by apply field_items_NoDup|].
      by apply nonkey_fields_items.
  - intros k f n Hn Hne. unfold column_name. rewrite Hn. by rewrite decide_False.
  - intros k f [Hn|Hn]; unfold column_name; rewrite Hn; [done|].
    by rewrite decide_True.
Qed.

Lemma update_template_form_witness :
  exists s,
    snd (__new__ "Student" Student_attrs) = Ok (Table s) /\
    __update__ s =
      update_form column_name "Student" (nonkey_fields Student_attrs) "SId".
Proof.
  exists Student. split; [reflexivity|].
  exact (proj1 (update_template_form "Student" Student_attrs Student
                  (proj1 (proj2 Student_declaration)) eq_refl)).
Defined.

(** C8, as stated, fails on a field whose name is the empty string: the
    name is present, yet the SET clause uses the declaration key. *)
Lemma update_template_empty_name_counterexample :
  exists s,
    snd (__new__ "Blog" Blog_attrs) = Ok (Table s) /\
    __update__ s = "update `Blog` set `title`=?, `content`=? where `id`=?" /\
    update_form stated_column "Blog" (nonkey_fields Blog_attrs) "id"
      = "update `Blog` set ``=?, `content`=? where `id`=?" /\
    __update__ s <> update_form stated_column "Blog" (nonkey_fields Blog_attrs) "id".
Proof.
  eexists. split; [vm_compute; reflexivity|].
  split; [reflexivity|]. split; [reflexivity|].
  vm_compute. discriminate.
Qed.

(** ** The SQL executor and the pool *)

Section Executor.
Context {DB : Type} (host : Host DB).

Lemma keeps_pool_ret {A} (a : A) : keeps_pool (ret (S := World DB) a).
Proof. by intros w. Qed.

Lemma keeps_pool_bind {A B} (c : M (World DB) A) (k : A -> M (World DB) B) :
  keeps_pool c -> (forall a, keeps_pool (k a)) -> keeps_pool (bind c k).
Proof.
  intros Hc Hk w. unfold bind. specialize (Hc w).
  destruct (c w) as [w' [a|e]]; simpl in *; [|done].
  by rewrite (Hk a w').
Qed.

Lemma keeps_pool_on_db {A} (op : DB -> DB * result A) : keeps_pool (on_db op).
Proof. intros w. unfold on_db. by destruct (op (db w)). Qed.

Lemma keeps_pool_emit l m : keeps_pool (emit (DB := DB) l m).
Proof. by intros w. Qed.

Lemma keeps_pool_lift {A} (r : result A) : keeps_pool (lift_result (S := World DB) r).
Proof. by intros w. Qed.

Lemma keeps_pool_rowcount cur :
  keeps_pool (fun w : World DB => (w, Ok (cur_rowcount host cur (db w)))).
Proof. by intros w. Qed.

Lemma remove_first_head c l : remove_first c (c :: l) = l.
Proof. simpl. by rewrite Nat.eqb_refl. Qed.

Lemma acquire_release p c p' :
  acquire p = Ok (c, p') -> returned_to_pool p (release c p').
Proof.
  unfold acquire, release, returned_to_pool.
  destruct (free p) as [|c' rest] eqn:Hfree; [done|].
  intros [= -> <-]. simpl. rewrite Nat.eqb_refl. split; [done|].
  symmetry. apply Permutation_cons_append.
Qed.

(** Leaving the [async with] block returns the connection, whatever the
    block did. *)
Lemma async_with_acquire_returns {A} (body : conn -> M (World DB) A) w :
  (forall c, keeps_pool (body c)) ->
  returned_to_pool (pool w) (pool (fst (async_with_acquire body w))).
Proof.
  intros Hbody. unfold async_with_acquire.
  destruct (acquire (pool w)) as [[c p]|e] eqn:Hacq.
  - specialize (Hbody c (set_pool p w)).
    destruct (body c (set_pool p w)) as [w' r]. simpl in *.
    rewrite Hbody. by apply acquire_release.
  - simpl. by split.
Qed.

Lemma returned_to_pool_refl p : returned_to_pool p p.
Proof. by split. Qed.

End Executor.

Ltac keeps_pool :=
  repeat first
    [ apply keeps_pool_ret | apply keeps_pool_on_db | apply keeps_pool_emit
    | apply keeps_pool_lift | apply keeps_pool_rowcount
    | apply keeps_pool_bind; [|intros ?] ].

(** C7. Every call of the executor, in select and in mutate mode,
    leaves the pool as it found it: the connection it acquired is back
    among the idle ones on every exit path, whether the statement, the
    fetch or the closing of the cursor succeeds or raises. *)
Theorem executeSql_returns_connection {DB : Type} (host : Host DB)
    (sql : string) (args : list value) (select_ : bool) (limit : option Z)
    (w : World DB) :
  returned_to_pool (pool w) (pool (fst (executeSql host sql args select_ limit w))).
Proof.
  unfold executeSql, bind at 1, lift_result.
  destruct (py_format host (replace_qmark sql) args) as [text|e];
    [|apply returned_to_pool_refl].
  unfold bind at 1, logging_info at 1, emit at 1.
  change (pool w) with (pool (add_log INFO (Text text) w)).
  apply async_with_acquire_returns. intros c.
  destruct select_.
  - destruct (limit_truthy limit); unfold logging_info; keeps_pool.
  - unfold logging_info; keeps_pool.
Qed.

Lemma args_or_empty_id (args : list value) : args_or_empty args = args.
Proof. by destruct args. Qed.

(** A select that goes through, with a row limit. *)
Lemma executeSql_select_fetchmany {DB : Type} (host : Host DB)
    (sql : string) (args : list value) (n : Z) (w : World DB)
    text c p d1 cur d2 rows d3 d4 :
  n <> 0 ->
  py_format host (replace_qmark sql) args = Ok text ->
  acquire (pool w) = Ok (c, p) ->
  conn_cursor host c (db w) = (d1, Ok cur) ->
  cur_execute host cur (replace_qmark sql) args d1 = (d2, Ok tt) ->
  cur_fetchmany host cur n d2 = (d3, Ok rows) ->
  cur_close host cur d3 = (d4, Ok tt) ->
  executeSql host sql args true (Some n) w =
    ({| pool := release c p;
        db := d4;
        logs := (logs w ++
                 [ mkLog INFO (Text text);
                   mkLog INFO (Text ("rows returned: " +:+ str_of_Z (Z.of_nat (length rows))));
                   mkLog INFO (Text "closing cursor...") ])%list |},
     Ok rows).
Proof.
  intros Hn Hfmt Hacq Hcur Hexe Hfetch Hclose.
  unfold executeSql, bind, lift_result, logging_info, emit, add_log,
    async_with_acquire, on_db, ret, set_pool, limit_truthy.
  rewrite Hfmt. simpl. rewrite Hacq. simpl. rewrite Hcur. simpl.
  rewrite args_or_empty_id, Hexe. simpl.
  apply Z.eqb_neq in Hn. rewrite Hn. simpl. rewrite Hfetch. simpl.
  rewrite Hclose. simpl. by rewrite <- !app_assoc.
Qed.

(** ** Queries *)

Section Queries.
Context {DB : Type} (host : Host DB).

(** [find] is the executor on the SELECT template with the key test
    appended, one argument and a row limit of one; its outcome is passed
    on, an empty list of rows becoming [None]. *)
Lemma find_unfold (cls : Schema) (pk : value) (w : World DB) :
  Model.find host cls pk w =
    let (w', r) :=
      executeSql host (__select__ cls +:+ " where " +:+ __primary_key__ cls +:+ "= ?")
        [pk] true (Some 1) w in
    (w', match r with
         | Ok [] => Ok VNone
         | Ok (r :: rs) => Ok (VList (r :: rs))
         | Raise e => Raise e
         end).
Proof.
  unfold Model.find, bind.
  destruct (executeSql _ _ _ _ _ _) as [w' [[|r rs]|e]]; done.
Qed.

(** C1, as amended. [find(pk)] runs the SELECT template followed by
    [where <pk>= ?] with [pk] as its only argument and fetches with a row
    limit of one; it returns [None] when no row is fetched, else the
    fetched list itself, which holds the first row. *)
Theorem find_returns_fetched_rows (cls : Schema) (pk : value) (w : World DB)
    text c p d1 cur d2 rows d3 d4 :
  let sql := __select__ cls +:+ " where " +:+ __primary_key__ cls +:+ "= ?" in
  py_format host (replace_qmark sql) [pk] = Ok text ->
  acquire (pool w) = Ok (c, p) ->
  conn_cursor host c (db w) = (d1, Ok cur) ->
  cur_execute host cur (replace_qmark sql) [pk] d1 = (d2, Ok tt) ->
  cur_fetchmany host cur 1 d2 = (d3, Ok rows) ->
  cur_close host cur d3 = (d4, Ok tt) ->
  snd (Model.find host cls pk w) =
    Ok (match rows with
        | [] => VNone
        | _ :: _ => VList rows
        end).
Proof.
  intros sql Hfmt Hacq Hcur Hexe Hfetch Hclose.
  rewrite find_unfold.
  erewrite executeSql_select_fetchmany by (done || lia).
  by destruct rows.
Qed.

(** [findAll] returns [None] or a non-empty list. *)
Lemma findAll_result (cls : Schema) (where_ : option string) (limit : option Z)
    (w : World DB) v :
  snd (Model.findAll host cls where_ limit w) = Ok v ->
  v = VNone \/ exists r rs, v = VList (r :: rs).
Proof.
  unfold Model.findAll, bind.
  destruct (Model.where_truthy where_);
    destruct (executeSql _ _ _ _ _ _) as [w' [[|r rs]|e]]; simpl;
    intros [= <-]; eauto.
Qed.

(** On a non-empty result [findCount] is the length of what [findAll]
    returns. *)
Lemma findCount_nonempty (cls : Schema) (where_ : option string) (limit : option Z)
    (w : World DB) l :
  snd (Model.findAll host cls where_ limit w) = Ok (VList l) ->
  snd (Model.findCount host cls where_ limit w) = Ok (VInt (Z.of_nat (length l))).
Proof.
  unfold Model.findCount, bind at 1.
  destruct (Model.findAll host cls where_ limit w) as [w' r]. simpl.
  by intros ->.
Qed.

(** When [findAll] returns [None], [len(None)] raises. *)
Lemma findCount_no_rows (cls : Schema) (where_ : option string) (limit : option Z)
    (w : World DB) :
  snd (Model.findAll host cls where_ limit w) = Ok VNone ->
  snd (Model.findCount host cls where_ limit w) =
    Raise (TypeError "object of type 'NoneType' has no len()").
Proof.
  unfold Model.findCount, bind at 1.
  destruct (Model.findAll host cls where_ limit w) as [w' r]. simpl.
  by intros ->.
Qed.

End Queries.

Lemma find_returns_fetched_rows_witness :
  snd (Model.find scripted Student (VStr "02") (world0 (mkScript [row02] 1 None)))
    = Ok (VList [row02]).
Proof.
  exact (find_returns_fetched_rows scripted Student (VStr "02")
           (world0 (mkScript [row02] 1 None))
           "select `SId`, `Sname`, `Sage`, `Ssex` from `Student` where SId= 02"
           1%nat (mkPool [2%nat] [1%nat]) (mkScript [row02] 1 None) 0%nat
           (mkScript [row02] 1 None) [row02] (mkScript [row02] 1 None)
           (mkScript [row02] 1 None)
           eq_refl eq_refl eq_refl eq_refl eq_refl eq_refl).
Defined.

(** C1, as stated, fails where a row matches: [find] returns the list of
    fetched rows, not its first element. *)
Lemma find_first_row_counterexample :
  snd (Model.find scripted Student (VStr "02") (world0 (mkScript [row02] 1 None)))
    <> Ok (stated_find_result [row02]).
Proof. vm_compute. discriminate. Qed.

(** C2. Where no row matches, [findAll] returns [None] and [findCount]
    raises [TypeError] instead of returning 0. *)
Theorem findCount_no_match_raises :
  snd (Model.findAll scripted Student (Some "SId >= 12") None
         (world0 (mkScript [] 0 None))) = Ok VNone
  /\ snd (Model.findCount scripted Student (Some "SId >= 12") None
            (world0 (mkScript [] 0 None)))
       = Raise (TypeError "object of type 'NoneType' has no len()").
Proof. split; vm_compute; reflexivity. Qed.

(** ** Attribute access and default values *)

Section Attributes.
Variable inherited : string -> option value.
Variable cls : Schema.

(** On a name ordinary lookup does not find, attribute access reads
    the mapping. *)
Lemma attribute_unshadowed (r : gmap string value) (k : string) :
  Model.class_lookup inherited cls k = None ->
  Model.attribute inherited cls r k = Model.__getattr__ r k.
Proof. intros H. unfold Model.attribute. by rewrite H. Qed.

Lemma getattr_unshadowed (r : gmap string value) (k : string) (d : value) :
  Model.class_lookup inherited cls k = None ->
  Model.getattr inherited cls r k d = Ok (default d (r !! k)).
Proof.
  intros H. unfold Model.getattr. rewrite attribute_unshadowed by done.
  unfold Model.__getattr__. by destruct (r !! k).
Qed.

(** On a name ordinary lookup finds, the mapping is not consulted. *)
Lemma getattr_shadowed (r : gmap string value) (k : string) (d v : value) :
  Model.class_lookup inherited cls k = Some v ->
  Model.getattr inherited cls r k d = Ok v.
Proof. intros H. unfold Model.getattr, Model.attribute. by rewrite H. Qed.

(** C10, as amended. For every record [r], key [k] and value [v]:
    setting the attribute [k] to [v] stores [v] under [k] in the mapping;
    and when [k] is not a name ordinary lookup finds on the class,
    attribute access and mapping access agree, reading an attribute
    absent from the mapping raises [AttributeError], and [getValue]
    returns [None] for it instead of failing. *)
Theorem record_attribute_access (r : gmap string value) (k : string) (v : value) :
  Model.class_lookup inherited cls k = None ->
  Model.__setattr__ r k v !! k = Some v
  /\ Model.attribute inherited cls (Model.__setattr__ r k v) k = Ok v
  /\ (forall x, r !! k = Some x -> Model.attribute inherited cls r k = Ok x)
  /\ (r !! k = None ->
        Model.attribute inherited cls r k =
          Raise (AttributeError ("'Model' object has no attribute '" +:+ k +:+ "'")))
  /\ (r !! k = None -> Model.getValue inherited cls r k = Ok VNone).
Proof.
  intros Hk. unfold Model.getValue. rewrite getattr_unshadowed by done.
  rewrite !attribute_unshadowed by done.
  unfold Model.__getattr__, Model.__setattr__.
  rewrite lookup_insert_eq. split_and!; try done.
  - by intros x ->.
  - by intros ->.
  - by intros ->.
Qed.

(** C6, as amended. For every record and every declared field whose
    key ordinary lookup does not find on the class, [getValueOrDefault]
    returns the attribute when it is set and not [None], else the
    field's default, called when it is callable and taken as it is
    otherwise.  An exception raised by the callable reaches the caller
    and nothing is stored; a default that is not [None] is stored back
    on the record under the key, a [None] default stores nothing; the
    record then reads as the value returned. *)
Theorem getValueOrDefault_effective_value (key : string) (fld : Field.t)
    (self : gmap string value) :
  dict_get key (__mappings__ cls) = Some fld ->
  Model.class_lookup inherited cls key = None ->
  Model.getValueOrDefault inherited cls key self =
    match effective_value fld (self !! key) with
    | Ok v =>
        (if consults_default (self !! key) && negb (default_is_None (Field.default fld))
         then <[key := v]> self else self,
         Ok v)
    | Raise e => (self, Raise e)
    end
  /\ forall v, effective_value fld (self !! key) = Ok v ->
       Model.getValue inherited cls
         (fst (Model.getValueOrDefault inherited cls key self)) key = Ok v.
Proof.
  intros Hfld Hk. unfold Model.getValueOrDefault, Model.getValue.
  rewrite !getattr_unshadowed by done. unfold Model.__setattr__, Model.default_value.
  destruct (self !! key) as [x|] eqn:Hx; simpl.
  - destruct x; simpl; rewrite ?Hx; try (by split; [|intros v [= <-]]).
    rewrite Hfld. destruct (Field.default fld) as [d|f]; simpl.
    + destruct d; simpl; rewrite ?lookup_insert_eq, ?Hx; (split; [done|]);
        by intros v [= <-].
    + destruct (f ()) as [v|e]; simpl; [|by split].
      rewrite lookup_insert_eq. split; [done|]. by intros v' [= <-].
  - rewrite Hfld. destruct (Field.default fld) as [d|f]; simpl.
    + destruct d; simpl; rewrite ?lookup_insert_eq, ?Hx; (split; [done|]);
        by intros v [= <-].
    + destruct (f ()) as [v|e]; simpl; [|by split].
      rewrite lookup_insert_eq. split; [done|]. by intros v' [= <-].
Qed.

End Attributes.

Lemma record_attribute_access_witness :
  Model.attribute dict_methods Student (Model.__init__ [("SId", VStr "08")]) "Sname"
    = Raise (AttributeError "'Model' object has no attribute 'Sname'")
  /\ Model.getValue dict_methods Student (Model.__init__ [("SId", VStr "08")]) "Sname"
       = Ok VNone.
Proof.
  pose proof (record_attribute_access dict_methods Student
                (Model.__init__ [("SId", VStr "08")]) "Sname" VNone eq_refl)
    as (_ & _ & _ & H1 & H2).
  split; [exact (H1 eq_refl)|exact (H2 eq_refl)].
Defined.

(** C10, as stated, fails on a name the class defines: [__table__] is
    read from the class whatever the mapping holds. *)
Lemma record_attribute_access_counterexample :
  ~ stated_attribute_access dict_methods Student ∅ "__table__" (VStr "Pupil").
Proof. intros (_ & H & _). vm_compute in H. discriminate. Qed.

Lemma getValueOrDefault_effective_value_witness :
  Model.getValueOrDefault dict_methods Student "SId" (Model.__init__ [("Sname", VStr "X")])
    = (<["SId" := VInt 0]> (Model.__init__ [("Sname", VStr "X")]), Ok (VInt 0)).
Proof.
  exact (proj1 (getValueOrDefault_effective_value dict_methods Student "SId"
                  (IntegerField None true (Literal (VInt 0)))
                  (Model.__init__ [("Sname", VStr "X")]) eq_refl eq_refl)).
Defined.

(** C6, as stated, fails on a declared field named as a method of
    [Model]: the attribute that was set is in the mapping, and what is
    resolved is the bound method.  It also fails on a field whose default
    is [None]: nothing is stored on the record. *)
Lemma getValueOrDefault_effective_value_counterexample :
  ~ stated_effective_value dict_methods Job "update"
      (StringField None false (Literal (VStr "never")) "varchar(100)")
      (Model.__init__ [("update", VStr "now")])
  /\ ~ stated_effective_value dict_methods Student "Sname"
        (StringField None false (Literal VNone) "varchar(100)")
        (Model.__init__ [("SId", VStr "08")]).
Proof.
  split.
  - intros [H _]. vm_compute in H. discriminate.
  - intros [_ H]. specialize (H VNone eq_refl). vm_compute in H. discriminate.
Qed.

(** ** Persistence *)

Section Resolution.
Variable inherited : string -> option value.
Variable cls : Schema.

(** On a declared field [getValueOrDefault] raises only what the
    field's callable default raises, and then leaves the record alone. *)
Lemma getValueOrDefault_declared_raise (key : string) (fld : Field.t)
    (s s' : gmap string value) (e : exn) :
  dict_get key (__mappings__ cls) = Some fld ->
  Model.getValueOrDefault inherited cls key s = (s', Raise e) ->
  s' = s /\ exists f, Field.default fld = Factory f /\ f tt = Raise e.
Proof.
  intros Hfld H. unfold Model.getValueOrDefault in H.
  destruct (Model.getattr inherited cls s key VNone) as [x|e0] eqn:Hg.
  - destruct (is_None x); [|done]. rewrite Hfld in H.
    destruct (negb (default_is_None (Field.default fld))); [|done].
    unfold Model.default_value in H.
    destruct (Field.default fld) as [v|f]; [done|].
    destruct (f ()) as [v|e1] eqn:Hf; [done|]. injection H as <- <-. eauto.
  - unfold Model.getattr, Model.attribute, Model.__getattr__ in Hg.
    destruct (Model.class_lookup inherited cls key); [done|].
    by destruct (s !! key).
Qed.

Lemma getValueOrDefault_declared_total (key : string) (fld : Field.t)
    (s : gmap string value) :
  dict_get key (__mappings__ cls) = Some fld ->
  (forall f, Field.default fld = Factory f -> exists v, f tt = Ok v) ->
  exists s' v, Model.getValueOrDefault inherited cls key s = (s', Ok v).
Proof.
  intros Hfld Hf.
  destruct (Model.getValueOrDefault inherited cls key s) as [s' [v|e]] eqn:H;
    [by eauto|].
  apply getValueOrDefault_declared_raise with (fld := fld) in H as (_ & f & Hd & He);
    [|done].
  destruct (Hf f Hd) as [v Hv]. congruence.
Qed.

End Resolution.

Lemma mapM_raise {S A B} (f : A -> M S B) (l : list A) (s s' : S) (e : exn) :
  mapM f l s = (s', Raise e) ->
  exists x s0, In x l /\ f x s0 = (s', Raise e).
Proof.
  revert s. induction l as [|x l IH]; intros s; simpl; [done|].
  unfold bind at 1. destruct (f x s) as [s1 [y|e1]] eqn:Hx.
  - unfold bind at 1. destruct (mapM f l s1) as [s2 [ys|e2]] eqn:Hl; [done|].
    intros [= <- <-]. destruct (IH _ Hl) as (x' & s0 & Hin & Hx').
    exists x', s0. split; [by right|done].
  - intros [= <- <-]. exists x, s. split; [by left|done].
Qed.

Lemma mapM_total {S A B} (f : A -> M S B) (l : list A) :
  (forall x, In x l -> forall s, exists s' y, f x s = (s', Ok y)) ->
  forall s, exists s' ys, mapM f l s = (s', Ok ys).
Proof.
  induction l as [|x l IH]; intros H s; simpl.
  - by exists s, [].
  - destruct (H x (or_introl eq_refl) s) as (s1 & y & Hy).
    destruct IH with (s := s1) as (s2 & ys & Hys).
    { intros x' Hin. apply H. by right. }
    exists s2, (y :: ys). unfold bind. by rewrite Hy, Hys.
Qed.

Lemma mapM_length {S A B} (f : A -> M S B) (l : list A) (s s' : S) (ys : list B) :
  mapM f l s = (s', Ok ys) -> length ys = length l.
Proof.
  revert s ys. induction l as [|x l IH]; intros s ys; simpl.
  - by intros [= <- <-].
  - unfold bind at 1. destruct (f x s) as [s1 [y|e1]]; [|done].
    unfold bind at 1. destruct (mapM f l s1) as [s2 [zs|e2]] eqn:Hl; [|done].
    intros [= <- <-]. simpl. f_equal. by eapply IH.
Qed.

(** The fields and the primary key of a compiled class are keys of its
    [__mappings__]. *)
Lemma compiled_class_mappings name attrs cls :
  snd (__new__ name attrs) = Ok (Table cls) ->
  forall k, In k (__fields__ cls ++ [__primary_key__ cls]) ->
    exists fld, dict_get k (__mappings__ cls) = Some fld.
Proof.
  intros Hnew. apply new_Table_inv in Hnew as (pk & sets & Hpk & _ & ->).
  cbn [__fields__ __primary_key__ __mappings__ compiled].
  intros k Hin.
  assert (H : dict_get k (collect attrs []) <> None).
  { apply in_app_or in Hin as [Hin|[<-|[]]];
      [by apply collect_nonkey|by apply collect_pk]. }
  destruct (dict_get k (collect attrs [])); [by eauto|done].
Qed.

Section ResolveArgs.
Variable inherited : string -> option value.

(** Resolving the arguments of an instance of a compiled class raises
    only what a callable default of the class raises. *)
Lemma resolve_args_raise name attrs cls (self self' : gmap string value) (e : exn) :
  snd (__new__ name attrs) = Ok (Table cls) ->
  Model.resolve_args inherited cls self = (self', Raise e) ->
  exists k fld f,
    In k (__fields__ cls ++ [__primary_key__ cls])
    /\ dict_get k (__mappings__ cls) = Some fld
    /\ Field.default fld = Factory f
    /\ f tt = Raise e.
Proof.
  intros Hnew. pose proof (compiled_class_mappings _ _ _ Hnew) as Hdecl.
  unfold Model.resolve_args, bind at 1.
  destruct (mapM _ _ self) as [s1 [args|e1]] eqn:Hargs.
  - unfold bind at 1.
    destruct (Model.getValueOrDefault inherited cls (__primary_key__ cls) s1)
      as [s2 [v|e2]] eqn:Hpk; [done|].
    intros [= <- <-].
    destruct (Hdecl (__primary_key__ cls)) as [fld Hfld];
      [apply in_or_app; right; by left|].
    eapply getValueOrDefault_declared_raise in Hpk as (_ & f & Hd & He); [|done].
    exists (__primary_key__ cls), fld, f. split_and!; [|done..].
    apply in_or_app. right. by left.
  - intros [= <- <-]. apply mapM_raise in Hargs as (k & s0 & Hin & Hk).
    destruct (Hdecl k) as [fld Hfld]; [apply in_or_app; by left|].
    eapply getValueOrDefault_declared_raise in Hk as (_ & f & Hd & He); [|done].
    exists k, fld, f. split_and!; [|done..]. apply in_or_app. by left.
Qed.

Lemma resolve_args_total name attrs cls (self : gmap string value) :
  snd (__new__ name attrs) = Ok (Table cls) ->
  factories_return cls ->
  exists self' args, Model.resolve_args inherited cls self = (self', Ok args).
Proof.
  intros Hnew Hf. pose proof (compiled_class_mappings _ _ _ Hnew) as Hdecl.
  destruct (Model.resolve_args inherited cls self) as [self' [args|e]] eqn:H;
    [by eauto|].
  eapply resolve_args_raise in H as (k & fld & f & _ & Hfld & Hd & He); [|done].
  destruct (Hf k fld f Hfld Hd) as [v Hv]. congruence.
Qed.

Lemma resolve_args_length cls (self self' : gmap string value) args :
  Model.resolve_args inherited cls self = (self', Ok args) ->
  length args = S (length (__fields__ cls)).
Proof.
  unfold Model.resolve_args, bind at 1.
  destruct (mapM _ _ self) as [s1 [vs|e1]] eqn:Hargs; [|done].
  unfold bind at 1.
  destruct (Model.getValueOrDefault inherited cls (__primary_key__ cls) s1)
    as [s2 [v|e2]]; [|done].
  intros [= <- <-]. apply mapM_length in Hargs.
  rewrite length_app, Hargs. simpl. lia.
Qed.

End ResolveArgs.

Section Persistence.
Context {DB : Type} (host : Host DB).
Variable inherited : string -> option value.

(** C5, as amended. For every instance of a compiled class, [save]
    returns normally whatever the executor does once its arguments are
    resolved: an exception raised while running the INSERT is caught and
    logged as an error, and an affected-row count other than 1 is logged
    as a warning.  [save] raises only when resolving the arguments
    raises, that is when a callable default of the class raises; the
    statement is then not run. *)
Theorem save_catches_executor_errors (name : string) (attrs : list (string * attr))
    (cls : Schema) (self : gmap string value) (w : World DB) :
  snd (__new__ name attrs) = Ok (Table cls) ->
  (forall self' args,
     Model.resolve_args inherited cls self = (self', Ok args) ->
     Model.save host inherited cls (self, w) =
       ((self',
         match executeSql host (__insert__ cls) args false None w with
         | (w1, Raise e) => add_log ERROR (Exc e) w1
         | (w1, Ok n) =>
             if Z.eqb n 1 then w1
             else add_log WARNING
                    (Text ("failed to insert record. affected rows: " +:+ str_of_Z n)) w1
         end),
        Ok VNone))
  /\ (forall self' e,
        Model.resolve_args inherited cls self = (self', Raise e) ->
        Model.save host inherited cls (self, w) = ((self', w), Raise e)
        /\ exists k fld f,
             In k (__fields__ cls ++ [__primary_key__ cls])
             /\ dict_get k (__mappings__ cls) = Some fld
             /\ Field.default fld = Factory f
             /\ f tt = Raise e)
  /\ (factories_return cls ->
      exists self' args, Model.resolve_args inherited cls self = (self', Ok args)).
Proof.
  intros Hnew. split_and!.
  - intros self' args Hargs.
    unfold Model.save, bind at 1, Model.on_self. simpl. rewrite Hargs.
    unfold try_except, bind, Model.on_world, logging_warning, logging_error, emit, ret.
    simpl.
    destruct (executeSql host (__insert__ cls) args false None w) as [w1 [n|e]]; simpl.
    + by destruct (Z.eqb n 1).
    + done.
  - intros self' e Hargs. split.
    + unfold Model.save, bind at 1, Model.on_self. simpl. by rewrite Hargs.
    + by eapply resolve_args_raise.
  - intros Hf. by eapply resolve_args_total.
Qed.

(** C9. For every instance of a compiled class and every primary-key
    value, [update] and [remove] return normally when the executor
    reports an affected-row count other than 1, having logged one
    warning and nothing else.  The arguments of [update] are resolved
    whenever no callable default of the class raises. *)
Theorem update_remove_warn_only (name : string) (attrs : list (string * attr))
    (cls : Schema) :
  snd (__new__ name attrs) = Ok (Table cls) ->
  (forall (self self' : gmap string value) args (w w1 : World DB) n,
     Model.resolve_args inherited cls self = (self', Ok args) ->
     executeSql host (__update__ cls) args false None w = (w1, Ok n) ->
     n <> 1 ->
     Model.update host inherited cls (self, w) =
       ((self',
         add_log WARNING
           (Text ("failed to update record. affected rows: " +:+ str_of_Z n)) w1),
        Ok VNone))
  /\ (forall (primary : value) (w w1 : World DB) n,
        executeSql host (__delete__ cls) [primary] false None w = (w1, Ok n) ->
        n <> 1 ->
        Model.remove host cls primary w =
          (add_log WARNING
             (Text ("failed to remove record. affected rows: " +:+ str_of_Z n)) w1,
           Ok VNone))
  /\ (factories_return cls ->
      forall self : gmap string value,
        exists self' args, Model.resolve_args inherited cls self = (self', Ok args)).
Proof.
  intros Hnew. split_and!.
  - intros self self' args w w1 n Hargs Hexec Hn.
    unfold Model.update, bind at 1, Model.on_self. simpl. rewrite Hargs.
    unfold bind, Model.on_world, logging_warning, emit, ret. simpl.
    rewrite Hexec. apply Z.eqb_neq in Hn. by rewrite Hn.
  - intros primary w w1 n Hexec Hn.
    unfold Model.remove, bind, logging_warning, emit, ret.
    rewrite Hexec. apply Z.eqb_neq in Hn. by rewrite Hn.
  - intros Hf self. by eapply resolve_args_total.
Qed.

End Persistence.

Lemma save_catches_executor_errors_witness :
  snd (Model.save scripted dict_methods Student
         (Model.__init__ [("SId", VStr "08")],
          world0 (mkScript [] 0 (Some (Error "Duplicate entry '08' for key 'PRIMARY'")))))
    = Ok VNone.
Proof.
  rewrite (proj1 (save_catches_executor_errors scripted dict_methods "Student"
                    Student_attrs Student (Model.__init__ [("SId", VStr "08")])
                    (world0 (mkScript [] 0
                               (Some (Error "Duplicate entry '08' for key 'PRIMARY'"))))
                    eq_refl)
             (fst (Model.resolve_args dict_methods Student
                     (Model.__init__ [("SId", VStr "08")])))
             [VNone; VNone; VNone; VStr "08"]).
  - reflexivity.
  - vm_compute. reflexivity.
Defined.

(** C5, as stated, fails on a class whose default factory raises: the
    arguments are resolved before the [try], and [save] raises. *)
Lemma save_never_raises_counterexample :
  snd (Model.save scripted dict_methods Ticket
         (Model.__init__ [("title", VStr "printer")], world0 (mkScript [] 1 None)))
    = Raise (RuntimeError "no identifier available")
  /\ snd (Model.save scripted dict_methods Ticket
            (Model.__init__ [("title", VStr "printer")], world0 (mkScript [] 1 None)))
       <> Ok VNone.
Proof. split; vm_compute; [reflexivity|discriminate]. Qed.

Lemma update_remove_warn_only_witness :
  snd (Model.remove scripted Student (VStr "08") (world0 (mkScript [] 0 None)))
    = Ok VNone.
Proof.
  rewrite (proj1 (proj2 (update_remove_warn_only scripted dict_methods "Student"
                           Student_attrs Student eq_refl))
             (VStr "08") (world0 (mkScript [] 0 None))
             (fst (executeSql scripted (__delete__ Student) [VStr "08"] false None
                     (world0 (mkScript [] 0 None)))) 0).
  - reflexivity.
  - vm_compute. reflexivity.
  - lia.
Defined.

(** * Further properties of the module *)

(** ** The compiled class *)

Lemma pk_keys_field attrs k :
  In k (pk_keys attrs) ->
  exists f, In (k, f) (field_items attrs) /\ Field.primary_key f = true.
Proof.
  induction attrs as [|[k' a] attrs IH]; simpl; [done|].
  destruct a as [f| |]; try (intros H; destruct (IH H) as (f' & ? & ?); by eauto).
  destruct (Field.primary_key f) eqn:Ef.
  - intros [<-|H]; [exists f; split; [by left|done]|].
    destruct (IH H) as (f' & ? & ?). exists f'. split; [by right|done].
  - intros H. destruct (IH H) as (f' & ? & ?). exists f'. split; [by right|done].
Qed.

Lemma nonkey_fields_not_primary attrs k f :
  In (k, f) (nonkey_fields attrs) -> Field.primary_key f = false.
Proof.
  induction attrs as [|[k' a] attrs IH]; simpl; [done|].
  destruct a as [f'| |]; try done.
  destruct (Field.primary_key f') eqn:Ef; [done|].
  intros [[= <- <-]|H]; [done|by apply IH].
Qed.

(** The SELECT and DELETE templates of a table declaration with one
    primary-key field: the primary key comes first in the column list of
    SELECT, followed by the other columns in declaration order, and
    DELETE selects by the primary key. *)
Theorem select_delete_templates (name : string) (attrs : list (string * attr))
    (pk : string) :
  table_declaration name attrs ->
  pk_keys attrs = [pk] ->
  exists s,
    snd (__new__ name attrs) = Ok (Table s) /\
    __select__ s =
      "select `" +:+ pk +:+ "`, " +:+ join ", " (map backtick (nonkey_keys attrs))
        +:+ " from `" +:+ table_name name attrs +:+ "`" /\
    __delete__ s =
      "delete from `" +:+ table_name name attrs +:+ "` where `" +:+ pk +:+ "`=?".
Proof.
  intros Hdecl Hpk. pose proof Hdecl as (Hname & _ & _).
  destruct (new_one_pk name attrs pk) as (sets & _ & Hnew); [done| |done|].
  { apply (table_declaration_pk_nonempty name attrs); [done|]. rewrite Hpk. by left. }
  eexists. split; [exact Hnew|]. by split.
Qed.

Lemma select_delete_templates_witness :
  exists s,
    snd (__new__ "Student" Student_attrs) = Ok (Table s) /\
    __select__ s = "select `SId`, `Sname`, `Sage`, `Ssex` from `Student`" /\
    __delete__ s = "delete from `Student` where `SId`=?".
Proof.
  exact (select_delete_templates "Student" Student_attrs "SId"
           Student_declaration eq_refl).
Defined.

(** The table of a compiled class is its [__table__] attribute when
    that is a non-empty string, and the class name when the attribute is
    missing or empty. *)
Theorem table_name_default (name : string) (attrs : list (string * attr)) (s : Schema) :
  snd (__new__ name attrs) = Ok (Table s) ->
  (forall t, dict_get "__table__" attrs = Some (AStr t) -> t <> "" -> __table__ s = t)
  /\ (dict_get "__table__" attrs = None \/ dict_get "__table__" attrs = Some (AStr "") ->
      __table__ s = name).
Proof.
  intros Hnew. apply new_Table_inv in Hnew as (pk & sets & _ & _ & ->).
  cbn [__table__ compiled]. unfold table_name. split.
  - intros t -> Ht. simpl. by destruct t.
  - by intros [-> | ->].
Qed.

Lemma table_name_default_witness :
  __table__ Student = "Student".
Proof.
  exact (proj1 (table_name_default "Student" Student_attrs Student eq_refl)
           "Student" eq_refl ltac:(discriminate)).
Defined.

(** What a compiled class records of its declaration: [__mappings__]
    holds every declared field under its key, in declaration order;
    [__fields__] holds the keys of the fields not marked primary key, none
    of which is; and [__primary_key__] is the key of a field that is. *)
Theorem compiled_class_fields (name : string) (attrs : list (string * attr)) (s : Schema) :
  NoDup (dict_keys attrs) ->
  snd (__new__ name attrs) = Ok (Table s) ->
  __mappings__ s = field_items attrs
  /\ __fields__ s = nonkey_keys attrs
  /\ (forall k, In k (__fields__ s) ->
        exists f, dict_get k (__mappings__ s) = Some f /\ Field.primary_key f = false)
  /\ (exists f, dict_get (__primary_key__ s) (__mappings__ s) = Some f
                /\ Field.primary_key f = true).
Proof.
  intros Hnd Hnew. apply new_Table_inv in Hnew as (pk & sets & Hpk & _ & ->).
  cbn [__mappings__ __fields__ __primary_key__ compiled].
  rewrite collect_NoDup by done. split_and!; [done..| |].
  - intros k Hin. unfold nonkey_keys in Hin.
    apply in_map_iff in Hin as ([k' f] & Hk & Hin). simpl in Hk. subst k'.
    exists f. split; [|by eapply nonkey_fields_not_primary].
    apply dict_get_In; [by apply field_items_NoDup|by apply nonkey_fields_items].
  - apply pk_keys_field in Hpk as (f & Hin & Hf). exists f. split; [|done].
    apply dict_get_In; [by apply field_items_NoDup|done].
Qed.

Lemma compiled_class_fields_witness :
  __mappings__ Student = field_items Student_attrs
  /\ __fields__ Student = ["Sname"; "Sage"; "Ssex"].
Proof.
  pose proof (compiled_class_fields "Student" Student_attrs Student
                (proj1 (proj2 Student_declaration)) eq_refl) as (H1 & H2 & _).
  split; [exact H1|exact H2].
Defined.

Lemma fold_pop_skip (ks : list string) (k : string) (a : attr)
    (rest : list (string * attr)) :
  ~ In k ks ->
  fold_left (fun d k' => dict_pop k' d) ks ((k, a) :: rest)
    = (k, a) :: fold_left (fun d k' => dict_pop k' d) ks rest.
Proof.
  revert rest. induction ks as [|k' ks IH]; intros rest Hk; simpl; [done|].
  destruct (String.eqb_spec k' k) as [->|Hne]; [exfalso; apply Hk; by left|].
  pose proof (IH (dict_pop k' rest)) as IH'.
  simpl in IH'. apply IH'. intros Hin. apply Hk. by right.
Qed.

Lemma pop_fields attrs :
  NoDup (dict_keys attrs) ->
  fold_left (fun d k => dict_pop k d) (dict_keys (field_items attrs)) attrs
    = non_field_items attrs.
Proof.
  induction attrs as [|[k a] attrs IH]; intros Hnd; [done|].
  simpl in Hnd. apply NoDup_cons in Hnd as [Hk Hnd].
  assert (Hfresh : ~ In k (dict_keys (field_items attrs))).
  { intros Hin. apply Hk. apply list_elem_of_In.
    unfold dict_keys in Hin. apply in_map_iff in Hin as ([k' f] & Heq & Hin).
    simpl in Heq. subst k'. by apply field_items_keys in Hin. }
  destruct a as [f| |]; simpl.
  - rewrite String.eqb_refl. by apply IH.
  - rewrite fold_pop_skip by done. by rewrite IH.
  - rewrite fold_pop_skip by done. by rewrite IH.
Qed.

Lemma dict_get_store_all (kvs d : list (string * value)) (k : string) :
  NoDup (dict_keys kvs) ->
  dict_get k (store_all kvs d) =
    match dict_get k kvs with
    | Some v => Some v
    | None => dict_get k d
    end.
Proof.
  unfold store_all. revert d.
  induction kvs as [|[k0 v0] kvs IH]; intros d Hnd; [done|].
  simpl in Hnd. apply NoDup_cons in Hnd as [Hk0 Hnd]. simpl.
  rewrite IH by done.
  destruct (String.eqb_spec k k0) as [->|Hne].
  - rewrite dict_get_None, dict_get_set_eq; [done|].
    intros Hin. apply Hk0. by apply list_elem_of_In.
  - rewrite dict_get_set_ne by done. done.
Qed.

Lemma dict_get_map_values {A B} (f : A -> B) (d : list (string * A)) (k : string) :
  dict_get k (map (fun ka => (fst ka, f (snd ka))) d) = f <$> dict_get k d.
Proof.
  induction d as [|[k' a] d IH]; simpl; [done|].
  by destruct (String.eqb k k').
Qed.

Lemma non_field_items_keys attrs k :
  In k (dict_keys (non_field_items attrs)) -> In k (dict_keys attrs).
Proof.
  induction attrs as [|[k' a] attrs IH]; simpl; [done|].
  destruct a; simpl; intros H; try (right; by apply IH);
    (destruct H as [H|H]; [by left|right; by apply IH]).
Qed.

Lemma field_not_kept attrs k f :
  NoDup (dict_keys attrs) ->
  In (k, f) (field_items attrs) ->
  dict_get k (non_field_items attrs) = None.
Proof.
  induction attrs as [|[k' a] attrs IH]; simpl; [done|].
  intros Hnd Hin. apply NoDup_cons in Hnd as [Hk Hnd].
  destruct a as [f'| |]; simpl in *.
  - destruct Hin as [[= -> ->]|Hin]; [|by apply IH].
    apply dict_get_None. intros H. apply Hk, list_elem_of_In.
    by apply non_field_items_keys.
  - destruct (String.eqb_spec k k') as [->|Hne]; [|by apply IH].
    exfalso. apply Hk, list_elem_of_In. by eapply field_items_keys.
  - destruct (String.eqb_spec k k') as [->|Hne]; [|by apply IH].
    exfalso. apply Hk, list_elem_of_In. by eapply field_items_keys.
Qed.

(** The dictionary the metaclass hands to [type.__new__]: the
    generated entries hold the compiled values, whatever the class body
    had under these names; every other entry of the class body that is
    not a [Field] is kept; and a declared field is no longer found under
    its key, unless that key is one of the generated names. *)
Theorem compiled_class_body (name : string) (attrs : list (string * attr)) (s : Schema) :
  NoDup (dict_keys attrs) ->
  snd (__new__ name attrs) = Ok (Table s) ->
  (dict_get "__table__" (namespace s) = Some (table_object name attrs)
   /\ dict_get "__primary_key__" (namespace s) = Some (VStr (__primary_key__ s))
   /\ dict_get "__fields__" (namespace s) = Some (VList (map VStr (__fields__ s)))
   /\ dict_get "__select__" (namespace s) = Some (VStr (__select__ s))
   /\ dict_get "__insert__" (namespace s) = Some (VStr (__insert__ s))
   /\ dict_get "__update__" (namespace s) = Some (VStr (__update__ s))
   /\ dict_get "__delete__" (namespace s) = Some (VStr (__delete__ s))
   /\ dict_get "__mappings__" (namespace s) =
        Some (VDict (map (fun kf => (fst kf, field_object (snd kf))) (__mappings__ s))))
  /\ (forall k, ~ In k generated_names ->
        dict_get k (namespace s) = attr_value <$> dict_get k (non_field_items attrs))
  /\ (forall k f, In (k, f) (field_items attrs) -> ~ In k generated_names ->
        dict_get k (namespace s) = None).
Proof.
  intros Hnd Hnew. apply new_Table_inv in Hnew as (pk & sets & _ & _ & ->).
  assert (Hgen : forall l : list (string * value),
            NoDup (dict_keys l) <-> bool_decide (NoDup (dict_keys l)) = true).
  { intros l. by rewrite bool_decide_eq_true. }
  assert (Hother : forall k, ~ In k generated_names ->
            dict_get k (namespace (compiled name attrs pk sets))
              = attr_value <$> dict_get k (non_field_items attrs)).
  { intros k Hk. unfold compiled. cbn [namespace].
    rewrite dict_get_store_all by (apply Hgen; reflexivity).
    rewrite (dict_get_None k) by exact Hk.
    by rewrite collect_NoDup, pop_fields, dict_get_map_values. }
  split_and!;
    try (unfold compiled; cbn [namespace __table__ __primary_key__ __fields__
                               __select__ __insert__ __update__ __delete__ __mappings__];
         rewrite dict_get_store_all by (apply Hgen; reflexivity); reflexivity).
  - done.
  - intros k f Hin Hk. rewrite Hother by done.
    by rewrite (field_not_kept attrs k f).
Qed.

Lemma compiled_class_body_witness :
  dict_get "__table__" (namespace Student) = Some (VStr "Student")
  /\ dict_get "Sname" (namespace Student) = None.
Proof.
  pose proof (compiled_class_body "Student" Student_attrs Student
                (proj1 (proj2 Student_declaration)) eq_refl) as (H1 & _ & H3).
  split; [exact (proj1 H1)|].
  apply (H3 "Sname" (StringField None false (Literal VNone) "varchar(100)")).
  - simpl. tauto.
  - apply (bool_decide_unpack _). vm_compute. exact I.
Defined.

(** [BooleanField] and [TextField] are never primary keys: a class that
    declares no other kind of field does not compile. *)
Theorem boolean_text_fields_no_primary_key (name : string)
    (attrs : list (string * attr)) :
  name <> "Model" ->
  (forall k f, In (k, AField f) attrs ->
     exists n d, f = BooleanField n d \/ f = TextField n d) ->
  snd (__new__ name attrs) = Raise (RuntimeError "Primary key not found.").
Proof.
  intros Hname Hall.
  assert (Hpk : pk_keys attrs = []).
  { induction attrs as [|[k a] attrs IH]; [done|]. simpl.
    assert (Hrest : pk_keys attrs = []).
    { apply IH. intros k' f' Hin. apply (Hall k' f'). by right. }
    destruct a as [f| |]; try done.
    destruct (Hall k f) as (n & d & [-> | ->]); [by left|done..]. }
  unfold __new__. apply String.eqb_neq in Hname. rewrite Hname.
  destruct (scan attrs _ _) as [logs r] eqn:Hscan.
  pose proof (f_equal snd Hscan) as Hsnd. simpl in Hsnd.
  rewrite scan_no_pk in Hsnd by done. by subst r.
Qed.

Lemma boolean_text_fields_no_primary_key_witness :
  snd (__new__ "Flags"
         [("enabled", AField (BooleanField None (Literal (VBool false))));
          ("note", AField (TextField None (Literal VNone)))])
    = Raise (RuntimeError "Primary key not found.").
Proof.
  apply boolean_text_fields_no_primary_key; [discriminate|].
  intros k f [[= <- <-]|[[= <- <-]|[]]]; eauto.
Defined.

(** ** Resolving values *)

Section Resolving.
Variable inherited : string -> option value.
Variable cls : Schema.

Lemma getattr_returns (self : gmap string value) (key : string) (d : value) :
  Model.getattr inherited cls self key d =
    Ok match Model.class_lookup inherited cls key with
       | Some v => v
       | None => default d (self !! key)
       end.
Proof.
  unfold Model.getattr, Model.attribute, Model.__getattr__.
  destruct (Model.class_lookup inherited cls key); [done|].
  by destruct (self !! key).
Qed.

(** [getValueOrDefault] on a key no field is declared under: what
    [getattr] finds, on the class or else in the mapping, is returned as
    it is when it is not [None], without looking at the mappings;
    otherwise the lookup of the field raises [KeyError] and the record
    is left as it was. *)
Theorem getValueOrDefault_undeclared (key : string) (self : gmap string value) :
  dict_get key (__mappings__ cls) = None ->
  (forall x,
     Model.class_lookup inherited cls key = Some x
     \/ (Model.class_lookup inherited cls key = None /\ self !! key = Some x) ->
     x <> VNone ->
     Model.getValueOrDefault inherited cls key self = (self, Ok x))
  /\ (Model.class_lookup inherited cls key = Some VNone
      \/ (Model.class_lookup inherited cls key = None
          /\ (self !! key = None \/ self !! key = Some VNone)) ->
      Model.getValueOrDefault inherited cls key self = (self, Raise (KeyError key))).
Proof.
  intros Hnone. unfold Model.getValueOrDefault. rewrite getattr_returns. split.
  - intros x [-> | [-> ->]] Hx; by destruct x.
  - intros [-> | [-> [-> | ->]]]; simpl; by rewrite Hnone.
Qed.

(** Resolving a value a second time changes nothing: the call returns
    what the first call returned and leaves the record as the first call
    left it. *)
Theorem getValueOrDefault_idempotent (key : string) (self : gmap string value) :
  Model.getValueOrDefault inherited cls key
    (fst (Model.getValueOrDefault inherited cls key self))
  = Model.getValueOrDefault inherited cls key self.
Proof.
  unfold Model.getValueOrDefault. rewrite !getattr_returns.
  unfold Model.__setattr__, Model.default_value.
  destruct (Model.class_lookup inherited cls key) as [c|] eqn:Hc.
  - destruct (is_None c) eqn:Hn; simpl; rewrite ?Hn; [|done].
    destruct (dict_get key (__mappings__ cls)) as [fld|]; simpl; rewrite ?Hn; [|done].
    destruct (Field.default fld) as [[]|f]; simpl; rewrite ?Hn; simpl;
      rewrite ?insert_insert_eq; try done.
    destruct (f ()) as [v|e]; simpl; rewrite ?Hn; simpl;
      rewrite ?insert_insert_eq; done.
  - destruct (self !! key) as [x|] eqn:Hx; simpl.
    + destruct (is_None x) eqn:Hn; simpl; [|by rewrite Hx; simpl; rewrite ?Hn].
      destruct x; try done.
      destruct (dict_get key (__mappings__ cls)) as [fld|]; simpl;
        [|by rewrite Hx].
      destruct (Field.default fld) as [[]|f]; simpl;
        rewrite ?lookup_insert_eq, ?Hx; simpl; rewrite ?insert_insert_eq; try done.
      destruct (f ()) as [v|e] eqn:Hf; simpl; rewrite ?Hx; simpl; [|done].
      rewrite lookup_insert_eq. simpl.
      destruct v; simpl; rewrite ?Hf; simpl; rewrite ?insert_insert_eq; done.
    + destruct (dict_get key (__mappings__ cls)) as [fld|]; simpl;
        [|by rewrite Hx].
      destruct (Field.default fld) as [[]|f]; simpl;
        rewrite ?lookup_insert_eq, ?Hx; simpl; rewrite ?insert_insert_eq; try done.
      destruct (f ()) as [v|e] eqn:Hf; simpl; rewrite ?Hx; simpl; [|done].
      rewrite lookup_insert_eq. simpl.
      destruct v; simpl; rewrite ?Hf; simpl; rewrite ?insert_insert_eq; done.
Qed.

(** Resolving the value of one key leaves every other attribute of the
    record alone. *)
Theorem getValueOrDefault_other_keys (key key' : string) (self : gmap string value) :
  key' <> key ->
  fst (Model.getValueOrDefault inherited cls key self) !! key' = self !! key'.
Proof.
  intros Hne. unfold Model.getValueOrDefault. rewrite getattr_returns.
  unfold Model.__setattr__.
  destruct (is_None _); simpl; [|done].
  destruct (dict_get key (__mappings__ cls)) as [fld|]; simpl; [|done].
  destruct (negb (default_is_None (Field.default fld))); simpl; [|done].
  destruct (Model.default_value (Field.default fld)); simpl; [|done].
  by rewrite lookup_insert_ne.
Qed.

(** A column named as an attribute of the class is never read from
    the record: when ordinary lookup finds a value other than [None]
    under the key, [getValueOrDefault] returns that value, whatever the
    mapping holds and whatever the field's default, and changes
    nothing. *)
Theorem getValueOrDefault_shadowed (key : string) (self : gmap string value)
    (v : value) :
  Model.class_lookup inherited cls key = Some v ->
  v <> VNone ->
  Model.getValueOrDefault inherited cls key self = (self, Ok v).
Proof.
  intros Hk Hv. unfold Model.getValueOrDefault. rewrite getattr_returns, Hk.
  by destruct v.
Qed.

End Resolving.

Lemma getValueOrDefault_shadowed_witness :
  Model.getValueOrDefault dict_methods Job "update"
    (Model.__init__ [("update", VStr "now")])
  = (Model.__init__ [("update", VStr "now")], Ok (VObject "method" "update")).
Proof.
  exact (getValueOrDefault_shadowed dict_methods Job "update"
           (Model.__init__ [("update", VStr "now")]) (VObject "method" "update")
           eq_refl ltac:(discriminate)).
Defined.

Lemma getValueOrDefault_undeclared_witness :
  Model.getValueOrDefault dict_methods Student "Sclass"
    (Model.__init__ [("SId", VStr "08")])
    = (Model.__init__ [("SId", VStr "08")], Raise (KeyError "Sclass")).
Proof.
  exact (proj2 (getValueOrDefault_undeclared dict_methods Student "Sclass"
                  (Model.__init__ [("SId", VStr "08")]) eq_refl)
           (or_intror (conj eq_refl (or_introl eq_refl)))).
Defined.

Lemma getValueOrDefault_other_keys_witness :
  fst (Model.getValueOrDefault dict_methods Student "SId"
         (Model.__init__ [("Sname", VStr "X")]))
    !! "Sname" = Some (VStr "X").
Proof.
  exact (getValueOrDefault_other_keys dict_methods Student "SId" "Sname"
           (Model.__init__ [("Sname", VStr "X")]) ltac:(discriminate)).
Defined.

Lemma effective_value_stable (fld : Field.t) (a : option value) (v : value) :
  effective_value fld a = Ok v -> effective_value fld (Some v) = Ok v.
Proof.
  unfold effective_value. destruct v; try done.
  destruct a as [[]|]; done.
Qed.

Lemma map_result_app {A B} (f : A -> result B) (l : list A) (x : A) :
  map_result f (l ++ [x]) =
    match map_result f l with
    | Ok ys => match f x with Ok y => Ok (ys ++ [y])%list | Raise e => Raise e end
    | Raise e => Raise e
    end.
Proof.
  induction l as [|a l IH]; simpl.
  - by destruct (f x).
  - destruct (f a); [|done]. rewrite IH.
    destruct (map_result f l); [|done]. by destruct (f x).
Qed.

Lemma map_result_Forall2 {A B} (f : A -> result B) (l : list A) (ys : list B) :
  map_result f l = Ok ys -> Forall2 (fun x y => f x = Ok y) l ys.
Proof.
  revert ys. induction l as [|a l IH]; intros ys; simpl.
  - intros [= <-]. constructor.
  - destruct (f a) as [y|] eqn:Ha; [|done].
    destruct (map_result f l) as [zs|]; [|done]. intros [= <-].
    constructor; [done|by apply IH].
Qed.

Lemma Forall2_impl_In {A B} (P Q : A -> B -> Prop) (l : list A) (k : list B) :
  Forall2 P l k ->
  (forall x y, In x l -> P x y -> Q x y) ->
  Forall2 Q l k.
Proof.
  induction 1 as [|x y l k Hxy Hlk IH]; intros H; constructor.
  - apply H; [by left|done].
  - apply IH. intros x' y' Hin. apply H. by right.
Qed.

Lemma mapM_snoc {S A B} (f : A -> M S B) (l : list A) (x : A) (s : S) :
  mapM f (l ++ [x]) s =
    bind (mapM f l) (fun ys => bind (f x) (fun y => ret (ys ++ [y])%list)) s.
Proof.
  revert s. induction l as [|a l IH]; intros s.
  - simpl. unfold bind, ret. by destruct (f x s) as [s1 [y|e]].
  - change (mapM f ((a :: l) ++ [x]) s)
      with (bind (f a) (fun y => bind (mapM f (l ++ [x])) (fun ys => ret (y :: ys))) s).
    change (mapM f (a :: l))
      with (bind (f a) (fun y => bind (mapM f l) (fun ys => ret (y :: ys)))).
    unfold bind at 1 3 4. destruct (f a s) as [s1 [y|e]]; [|done].
    unfold bind at 1. rewrite IH. unfold bind, ret.
    destruct (mapM f l s1) as [s2 [ys|e]]; [|done].
    by destruct (f x s2) as [s3 [z|e]].
Qed.

Lemma resolve_args_mapM (inherited : string -> option value) (cls : Schema)
    (self : gmap string value) :
  Model.resolve_args inherited cls self
  = mapM (Model.getValueOrDefault inherited cls)
      (__fields__ cls ++ [__primary_key__ cls]) self.
Proof. unfold Model.resolve_args. by rewrite mapM_snoc. Qed.

Section Resolve.
Variable inherited : string -> option value.
Variable cls : Schema.
Variable self : gmap string value.

(** The keys resolved are declared, and ordinary lookup does not find
    them on the class. *)
Let plain (k : string) : Prop :=
  (exists fld, dict_get k (__mappings__ cls) = Some fld)
  /\ Model.class_lookup inherited cls k = None.

(** The record [s] resolves every declared field to what [self] does. *)
Let agrees (s : gmap string value) : Prop :=
  forall k fld, dict_get k (__mappings__ cls) = Some fld ->
    effective_value fld (s !! k) = effective_value fld (self !! k).

(** The record [s] holds the resolved value of [k]. *)
Let resolved (s : gmap string value) (k : string) : Prop :=
  Ok (default VNone (s !! k)) = declared_value cls self k.

Lemma getValueOrDefault_step (key : string) (fld : Field.t) (s : gmap string value) :
  dict_get key (__mappings__ cls) = Some fld ->
  Model.class_lookup inherited cls key = None ->
  Model.getValueOrDefault inherited cls key s =
    match effective_value fld (s !! key) with
    | Ok v =>
        (if consults_default (s !! key) && negb (default_is_None (Field.default fld))
         then <[key := v]> s else s,
         Ok v)
    | Raise e => (s, Raise e)
    end.
Proof.
  intros Hfld Hk. unfold Model.getValueOrDefault.
  rewrite getattr_returns, Hk. unfold Model.__setattr__, Model.default_value.
  destruct (s !! key) as [x|] eqn:Hx; simpl.
  - destruct x; simpl; try done.
    rewrite Hfld. destruct (Field.default fld) as [d|f]; simpl.
    + by destruct d.
    + by destruct (f ()).
  - rewrite Hfld. destruct (Field.default fld) as [d|f]; simpl.
    + by destruct d.
    + by destruct (f ()).
Qed.

Lemma getValueOrDefault_agrees (k : string) (s : gmap string value) :
  plain k ->
  agrees s ->
  exists s',
    Model.getValueOrDefault inherited cls k s = (s', declared_value cls self k)
    /\ (forall v, declared_value cls self k = Ok v ->
          agrees s' /\ resolved s' k /\ forall k', k' <> k -> s' !! k' = s !! k').
Proof.
  intros [[fld Hfld] Hk] Hs.
  rewrite (getValueOrDefault_step k fld s Hfld Hk).
  unfold resolved, declared_value. rewrite Hfld, <- (Hs k fld Hfld).
  destruct (effective_value fld (s !! k)) as [v|e] eqn:Hv; [|by eexists].
  eexists. split; [done|]. intros v' [= <-].
  destruct (consults_default (s !! k) && negb (default_is_None (Field.default fld)))
    eqn:Hc.
  - split_and!.
    + intros k' fld' Hfld'. destruct (decide (k' = k)) as [->|Hne].
      * rewrite lookup_insert_eq. assert (fld' = fld) as -> by congruence.
        rewrite (effective_value_stable _ _ _ Hv), <- Hv. by apply Hs.
      * rewrite lookup_insert_ne by done. by apply Hs.
    + by rewrite lookup_insert_eq.
    + intros k' Hne. by rewrite lookup_insert_ne.
  - split_and!; [done| |done].
    unfold effective_value, consults_default in *.
    destruct (s !! k) as [x|]; simpl in *.
    + destruct x; simpl in *; try congruence.
      destruct (Field.default fld) as [[]|f]; simpl in *; congruence.
    + destruct (Field.default fld) as [[]|f]; simpl in *; congruence.
Qed.

Lemma mapM_getValueOrDefault (l : list string) (s : gmap string value) :
  (forall k, In k l -> plain k) ->
  agrees s ->
  exists s',
    mapM (Model.getValueOrDefault inherited cls) l s
      = (s', map_result (declared_value cls self) l)
    /\ (forall vs, map_result (declared_value cls self) l = Ok vs ->
          agrees s'
          /\ (forall k, In k l \/ resolved s k -> resolved s' k)
          /\ (forall k, ~ In k l -> s' !! k = s !! k)).
Proof.
  revert s. induction l as [|k l IH]; intros s Hplain Hs.
  - exists s. split; [done|]. intros vs _. split_and!; [done| |done].
    by intros k [[]|H].
  - destruct (getValueOrDefault_agrees k s) as (s1 & Hstep & Hok);
      [apply Hplain; by left|done|].
    simpl. unfold bind at 1. rewrite Hstep.
    destruct (declared_value cls self k) as [v|e] eqn:Hv; [|by eexists].
    destruct (Hok v eq_refl) as (Hs1 & Hk & Hframe).
    destruct (IH s1) as (s2 & Hrest & Hok2);
      [intros k' Hin; apply Hplain; by right|done|].
    unfold bind at 1. rewrite Hrest.
    destruct (map_result (declared_value cls self) l) as [vs|e] eqn:Hvs;
      [|by eexists].
    destruct (Hok2 vs eq_refl) as (Hs2 & Hres & Hframe2).
    exists s2. split; [done|]. intros vs' _. split_and!; [done| |].
    + intros k' [[<-|Hin]|Hk']; apply Hres; [by right|by left|].
      right. destruct (decide (k' = k)) as [->|Hne]; [done|].
      unfold resolved in *. by rewrite Hframe.
    + intros k' Hnin. rewrite Hframe2, Hframe; [done|..]; intros H; apply Hnin;
        [left; congruence|by right].
Qed.

Lemma agrees_refl : agrees self.
Proof. by intros k fld _. Qed.

Lemma resolve_args_spec :
  (forall k, In k (__fields__ cls ++ [__primary_key__ cls]) -> plain k) ->
  exists self',
    Model.resolve_args inherited cls self =
      (self', map_result (declared_value cls self)
                (__fields__ cls ++ [__primary_key__ cls]))
    /\ (forall args,
          map_result (declared_value cls self) (__fields__ cls ++ [__primary_key__ cls])
            = Ok args ->
          Forall2 (fun k v => Model.getValue inherited cls self' k = Ok v)
            (__fields__ cls ++ [__primary_key__ cls]) args
          /\ (forall k, ~ In k (__fields__ cls ++ [__primary_key__ cls]) ->
                self' !! k = self !! k)).
Proof.
  intros Hplain.
  destruct (mapM_getValueOrDefault (__fields__ cls ++ [__primary_key__ cls]) self)
    as (s' & Hrun & Hok); [done|apply agrees_refl|].
  pose proof (resolve_args_mapM inherited cls self) as Hsame.
  exists s'. split; [by rewrite Hsame|].
  intros args Hargs. destruct (Hok args Hargs) as (_ & Hres & Hframe).
  split; [|done].
  apply map_result_Forall2 in Hargs.
  eapply Forall2_impl_In; [exact Hargs|]. simpl.
  intros k v Hin Hv. unfold Model.getValue.
  rewrite getattr_returns, (proj2 (Hplain k Hin)).
  specialize (Hres k (or_introl Hin)). unfold resolved in Hres. congruence.
Qed.

End Resolve.

Lemma Student_unshadowed : unshadowed dict_methods Student.
Proof.
  intros k Hin. simpl in Hin.
  destruct Hin as [<-|[<-|[<-|[<-|[]]]]]; reflexivity.
Defined.

(** The arguments [save] and [update] build for an instance of a
    compiled class none of whose columns is shadowed by a class
    attribute: the resolved value of every non-key field, in declaration
    order, followed by that of the primary key, each taken on the record
    as it was before the call; the first default that raises ends the
    resolution with its exception. *)
Theorem resolve_args_values (inherited : string -> option value) (name : string)
    (attrs : list (string * attr)) (cls : Schema) (self : gmap string value) :
  snd (__new__ name attrs) = Ok (Table cls) ->
  unshadowed inherited cls ->
  snd (Model.resolve_args inherited cls self) =
    map_result (declared_value cls self) (__fields__ cls ++ [__primary_key__ cls])
  /\ (forall args, snd (Model.resolve_args inherited cls self) = Ok args ->
        length args = S (length (__fields__ cls))).
Proof.
  intros Hnew Hun. pose proof (compiled_class_mappings _ _ _ Hnew) as Hdecl.
  destruct (resolve_args_spec inherited cls self) as (self' & Heq & _).
  { intros k Hin. split; [by apply Hdecl|by apply Hun]. }
  rewrite Heq. split; [done|]. simpl. intros args Hargs.
  apply map_result_Forall2, Forall2_length in Hargs.
  rewrite <- Hargs, length_app. simpl. lia.
Qed.

Lemma resolve_args_values_witness :
  snd (Model.resolve_args dict_methods Student (Model.__init__ [("Sname", VStr "X")]))
    = Ok [VStr "X"; VNone; VNone; VInt 0].
Proof.
  exact (proj1 (resolve_args_values dict_methods "Student" Student_attrs Student
                  (Model.__init__ [("Sname", VStr "X")]) eq_refl Student_unshadowed)).
Defined.

(** After [save] or [update] have resolved their arguments, reading
    each column of the class on the record gives the argument passed for
    it, and every attribute that is not a column of the class is as it
    was. *)
Theorem resolve_args_record (inherited : string -> option value) (name : string)
    (attrs : list (string * attr)) (cls : Schema) (self self' : gmap string value)
    (args : list value) :
  snd (__new__ name attrs) = Ok (Table cls) ->
  unshadowed inherited cls ->
  Model.resolve_args inherited cls self = (self', Ok args) ->
  Forall2 (fun k v => Model.getValue inherited cls self' k = Ok v)
    (__fields__ cls ++ [__primary_key__ cls]) args
  /\ (forall k, ~ In k (__fields__ cls ++ [__primary_key__ cls]) ->
        self' !! k = self !! k).
Proof.
  intros Hnew Hun Hargs. pose proof (compiled_class_mappings _ _ _ Hnew) as Hdecl.
  destruct (resolve_args_spec inherited cls self) as (s' & Heq & Hok).
  { intros k Hin. split; [by apply Hdecl|by apply Hun]. }
  rewrite Hargs in Heq. injection Heq as <- Hres. by apply Hok.
Qed.

Lemma resolve_args_record_witness :
  Forall2 (fun k v =>
             Model.getValue dict_methods Student
               (fst (Model.resolve_args dict_methods Student
                       (Model.__init__ [("Sname", VStr "X")]))) k = Ok v)
    ["Sname"; "Sage"; "Ssex"; "SId"] [VStr "X"; VNone; VNone; VInt 0].
Proof.
  exact (proj1 (resolve_args_record dict_methods "Student" Student_attrs Student
                  (Model.__init__ [("Sname", VStr "X")]) _ _
                  eq_refl Student_unshadowed eq_refl)).
Defined.

(** ** The executor: failures and modes *)

Section ExecutorPaths.
Context {DB : Type} (host : Host DB).

(** When rendering the statement for the log raises (the arguments do
    not fit the placeholders), [executeSql] raises that error at once,
    in either mode: nothing is logged, no connection is taken and the
    engine is not reached. *)
Theorem executeSql_format_error (sql : string) (args : list value) (select_ : bool)
    (limit : option Z) (w : World DB) (e : exn) :
  py_format host (replace_qmark sql) args = Raise e ->
  executeSql host sql args select_ limit w = (w, Raise e).
Proof.
  intros Hfmt. unfold executeSql, bind at 1, lift_result. by rewrite Hfmt.
Qed.

(** When the statement itself fails, [executeSql] raises the driver's
    error in either mode; the connection is back in the pool, only the
    statement has been logged, and the cursor is left unclosed: the
    engine is as the failed statement left it. *)
Theorem executeSql_statement_error (sql : string) (args : list value) (select_ : bool)
    (limit : option Z) (w : World DB) text c p d1 cur d2 (e : exn) :
  py_format host (replace_qmark sql) args = Ok text ->
  acquire (pool w) = Ok (c, p) ->
  conn_cursor host c (db w) = (d1, Ok cur) ->
  cur_execute host cur (replace_qmark sql) args d1 = (d2, Raise e) ->
  executeSql host sql args select_ limit w =
    ({| pool := release c p; db := d2;
        logs := (logs w ++ [mkLog INFO (Text text)])%list |},
     Raise e).
Proof.
  intros Hfmt Hacq Hcur Hexe.
  unfold executeSql, bind, lift_result, logging_info, emit, add_log,
    async_with_acquire, on_db, ret, set_pool.
  rewrite Hfmt. simpl. rewrite Hacq. simpl. rewrite Hcur. simpl.
  destruct select_; simpl; rewrite ?args_or_empty_id, Hexe; done.
Qed.

(** When fetching the rows fails, with a row limit ([fetchmany]) or
    without ([fetchall]), the error is raised, the connection is back in
    the pool, no row count is logged and the cursor is left unclosed. *)
Theorem executeSql_fetch_error (sql : string) (args : list value) (limit : option Z)
    (w : World DB) text c p d1 cur d2 d3 (e : exn) :
  py_format host (replace_qmark sql) args = Ok text ->
  acquire (pool w) = Ok (c, p) ->
  conn_cursor host c (db w) = (d1, Ok cur) ->
  cur_execute host cur (replace_qmark sql) args d1 = (d2, Ok tt) ->
  match limit_truthy limit with
  | Some n => cur_fetchmany host cur n d2
  | None => cur_fetchall host cur d2
  end = (d3, Raise e) ->
  executeSql host sql args true limit w =
    ({| pool := release c p; db := d3;
        logs := (logs w ++ [mkLog INFO (Text text)])%list |},
     Raise e).
Proof.
  intros Hfmt Hacq Hcur Hexe Hfetch.
  unfold executeSql, bind, lift_result, logging_info, emit, add_log,
    async_with_acquire, on_db, ret, set_pool.
  rewrite Hfmt. simpl. rewrite Hacq. simpl. rewrite Hcur. simpl.
  rewrite args_or_empty_id, Hexe. simpl.
  destruct (limit_truthy limit); simpl; by rewrite Hfetch.
Qed.

(** A statement that goes through in mutate mode returns the
    [rowcount] the cursor shows once the statement has run, before the
    cursor is closed. *)
Theorem executeSql_mutate_rowcount (sql : string) (args : list value)
    (limit : option Z) (w : World DB) text c p d1 cur d2 d3 :
  py_format host (replace_qmark sql) args = Ok text ->
  acquire (pool w) = Ok (c, p) ->
  conn_cursor host c (db w) = (d1, Ok cur) ->
  cur_execute host cur (replace_qmark sql) args d1 = (d2, Ok tt) ->
  cur_close host cur d2 = (d3, Ok tt) ->
  executeSql host sql args false limit w =
    ({| pool := release c p; db := d3;
        logs := (logs w ++
                 [ mkLog INFO (Text text);
                   mkLog INFO (Text ("rows affected: " +:+ str_of_Z (cur_rowcount host cur d2)));
                   mkLog INFO (Text "closing cursor...") ])%list |},
     Ok (cur_rowcount host cur d2)).
Proof.
  intros Hfmt Hacq Hcur Hexe Hclose.
  unfold executeSql, bind, lift_result, logging_info, emit, add_log,
    async_with_acquire, on_db, ret, set_pool.
  rewrite Hfmt. simpl. rewrite Hacq. simpl. rewrite Hcur. simpl.
  rewrite Hexe. simpl. rewrite Hclose. simpl. by rewrite <- !app_assoc.
Qed.

End ExecutorPaths.

Lemma executeSql_pool {DB : Type} (host : Host DB) (sql : string)
    (args : list value) (select_ : bool) (limit : option Z) (w : World DB) :
  returned_to_pool (pool w) (pool (fst (executeSql host sql args select_ limit w))).
Proof.
  unfold executeSql, bind at 1, lift_result.
  destruct (py_format host (replace_qmark sql) args) as [text|e];
    [|apply returned_to_pool_refl].
  unfold bind at 1, logging_info at 1, emit at 1.
  change (pool w) with (pool (add_log INFO (Text text) w)).
  apply async_with_acquire_returns. intros c.
  destruct select_.
  - destruct (limit_truthy limit); unfold logging_info; keeps_pool.
  - unfold logging_info; keeps_pool.
Qed.

Lemma executeSql_format_error_witness :
  executeSql scripted "delete from `Student` where `SId`=?" [] false None
    (world0 (mkScript [] 1 None))
  = (world0 (mkScript [] 1 None),
     Raise (TypeError "not enough arguments for format string")).
Proof.
  exact (executeSql_format_error scripted "delete from `Student` where `SId`=?" []
           false None (world0 (mkScript [] 1 None))
           (TypeError "not enough arguments for format string") eq_refl).
Defined.

Lemma executeSql_statement_error_witness :
  snd (executeSql scripted "delete from `Student` where `SId`=?" [VStr "08"] false None
         (world0 (mkScript [] 0 (Some (Error "server has gone away")))))
  = Raise (Error "server has gone away").
Proof.
  rewrite (executeSql_statement_error scripted "delete from `Student` where `SId`=?"
             [VStr "08"] false None
             (world0 (mkScript [] 0 (Some (Error "server has gone away"))))
             "delete from `Student` where `SId`=08" 1%nat (mkPool [2%nat] [1%nat])
             (mkScript [] 0 (Some (Error "server has gone away"))) 0%nat
             (mkScript [] 0 (Some (Error "server has gone away")))
             (Error "server has gone away") eq_refl eq_refl eq_refl eq_refl).
  reflexivity.
Defined.

Lemma executeSql_fetch_error_witness :
  snd (executeSql (scripted_fetch_error (Error "lost connection"))
         "select `SId` from `Student`" [] true None (world0 (mkScript [] 0 None)))
  = Raise (Error "lost connection").
Proof.
  rewrite (executeSql_fetch_error (scripted_fetch_error (Error "lost connection"))
             "select `SId` from `Student`" [] None (world0 (mkScript [] 0 None))
             "select `SId` from `Student`" 1%nat (mkPool [2%nat] [1%nat])
             (mkScript [] 0 None) 0%nat (mkScript [] 0 None) (mkScript [] 0 None)
             (Error "lost connection") eq_refl eq_refl eq_refl eq_refl eq_refl).
  reflexivity.
Defined.

Lemma executeSql_mutate_rowcount_witness :
  snd (executeSql scripted "delete from `Student` where `SId`=?" [VStr "08"] false None
         (world0 (mkScript [] 3 None)))
  = Ok 3.
Proof.
  rewrite (executeSql_mutate_rowcount scripted "delete from `Student` where `SId`=?"
             [VStr "08"] None (world0 (mkScript [] 3 None))
             "delete from `Student` where `SId`=08" 1%nat (mkPool [2%nat] [1%nat])
             (mkScript [] 3 None) 0%nat (mkScript [] 3 None) (mkScript [] 3 None)
             eq_refl eq_refl eq_refl eq_refl eq_refl).
  reflexivity.
Defined.


(** ** The operations of the record entity *)

Section Operations.
Context {DB : Type} (host : Host DB).
Variable inherited : string -> option value.

Lemma findAll_unfold (cls : Schema) (where_ : option string) (limit : option Z)
    (w : World DB) :
  Model.findAll host cls where_ limit w =
    let (w', r) :=
      executeSql host
        match Model.where_truthy where_ with
        | Some wh => __select__ cls +:+ " where " +:+ wh
        | None => __select__ cls
        end [] true limit w in
    (w', match r with
         | Ok [] => Ok VNone
         | Ok (r :: rs) => Ok (VList (r :: rs))
         | Raise e => Raise e
         end).
Proof.
  unfold Model.findAll, bind.
  destruct (Model.where_truthy where_);
    destruct (executeSql _ _ _ _ _ _) as [w' [[|r rs]|e]]; done.
Qed.

(** [find] and [findAll] never return an empty list: they return
    [None] or a list with at least one row. *)
Theorem queries_never_return_empty_list (cls : Schema) (pk : value)
    (where_ : option string) (limit : option Z) (w : World DB) :
  snd (Model.find host cls pk w) <> Ok (VList [])
  /\ snd (Model.findAll host cls where_ limit w) <> Ok (VList []).
Proof.
  rewrite find_unfold, findAll_unfold. split.
  - by destruct (executeSql _ _ _ _ _ _) as [w' [[|r rs]|e]].
  - by destruct (executeSql _ _ _ _ _ _) as [w' [[|r rs]|e]].
Qed.

(** When [findAll] returns a list, [findCount] on the same world
    returns its length, which is at least 1: [findCount] never returns
    0. *)
Theorem findCount_positive (cls : Schema) (where_ : option string) (limit : option Z)
    (w : World DB) :
  (forall l, snd (Model.findAll host cls where_ limit w) = Ok (VList l) ->
     snd (Model.findCount host cls where_ limit w) = Ok (VInt (Z.of_nat (length l))))
  /\ (forall v, snd (Model.findCount host cls where_ limit w) = Ok v ->
        exists n, v = VInt n /\ 1 <= n).
Proof.
  split; [intros l; apply findCount_nonempty|].
  unfold Model.findCount, bind at 1. rewrite findAll_unfold.
  destruct (executeSql _ _ _ _ _ _) as [w' [[|r rs]|e]]; simpl; try done.
  intros v [= <-]. eexists. split; [done|]. simpl. lia.
Qed.

(** An error of the executor goes through [find], [findAll] and
    [findCount] unchanged. *)
Theorem queries_propagate_errors (cls : Schema) (pk : value)
    (where_ : option string) (limit : option Z) (w : World DB) :
  (forall w' e,
     executeSql host (__select__ cls +:+ " where " +:+ __primary_key__ cls +:+ "= ?")
       [pk] true (Some 1) w = (w', Raise e) ->
     Model.find host cls pk w = (w', Raise e))
  /\ (forall w' e,
        Model.findAll host cls where_ limit w = (w', Raise e) ->
        Model.findCount host cls where_ limit w = (w', Raise e))
  /\ (forall w' e,
        executeSql host
          match Model.where_truthy where_ with
          | Some wh => __select__ cls +:+ " where " +:+ wh
          | None => __select__ cls
          end [] true limit w = (w', Raise e) ->
        Model.findAll host cls where_ limit w = (w', Raise e)).
Proof.
  split_and!.
  - intros w' e H. by rewrite find_unfold, H.
  - intros w' e H. unfold Model.findCount, bind at 1. by rewrite H.
  - intros w' e H. by rewrite findAll_unfold, H.
Qed.

(** A row limit of 0 and an empty WHERE string count as absent:
    [findAll] then selects every row of the table. *)
Theorem findAll_falsy_arguments (cls : Schema) (where_ : option string)
    (limit : option Z) (w : World DB) :
  Model.findAll host cls where_ (Some 0) w = Model.findAll host cls where_ None w
  /\ Model.findAll host cls (Some "") limit w = Model.findAll host cls None limit w.
Proof. by split. Qed.

(** Unlike [save], [update] and [remove] let an error of the executor
    through: it reaches the caller and no warning is logged; [update]
    has by then stored the resolved defaults on the record. *)
Theorem update_remove_propagate_errors (cls : Schema) :
  (forall (self self' : gmap string value) args (w w1 : World DB) e,
     Model.resolve_args inherited cls self = (self', Ok args) ->
     executeSql host (__update__ cls) args false None w = (w1, Raise e) ->
     Model.update host inherited cls (self, w) = ((self', w1), Raise e))
  /\ (forall (primary : value) (w w1 : World DB) e,
        executeSql host (__delete__ cls) [primary] false None w = (w1, Raise e) ->
        Model.remove host cls primary w = (w1, Raise e)).
Proof.
  split.
  - intros self self' args w w1 e Hargs Hexec.
    unfold Model.update, bind at 1, Model.on_self. simpl. rewrite Hargs.
    unfold bind, Model.on_world. simpl. by rewrite Hexec.
  - intros primary w w1 e Hexec. unfold Model.remove, bind. by rewrite Hexec.
Qed.

(** For an instance of a compiled class none of whose columns is
    shadowed by a class attribute, when every value resolves, [save]
    runs the INSERT template with the resolved value of every non-key
    field, in declaration order, then that of the primary key, and
    returns normally. *)
Theorem save_runs_insert (name : string) (attrs : list (string * attr))
    (cls : Schema) (self : gmap string value) (w : World DB) (args : list value) :
  snd (__new__ name attrs) = Ok (Table cls) ->
  unshadowed inherited cls ->
  map_result (declared_value cls self) (__fields__ cls ++ [__primary_key__ cls])
    = Ok args ->
  Model.save host inherited cls (self, w) =
    ((fst (Model.resolve_args inherited cls self),
      match executeSql host (__insert__ cls) args false None w with
      | (w1, Raise e) => add_log ERROR (Exc e) w1
      | (w1, Ok n) =>
          if Z.eqb n 1 then w1
          else add_log WARNING
                 (Text ("failed to insert record. affected rows: " +:+ str_of_Z n)) w1
      end),
     Ok VNone).
Proof.
  intros Hnew Hun Hargs. pose proof (compiled_class_mappings _ _ _ Hnew) as Hdecl.
  destruct (resolve_args_spec inherited cls self) as (self' & Heq & _).
  { intros k Hin. split; [by apply Hdecl|by apply Hun]. }
  rewrite Hargs in Heq.
  unfold Model.save, bind at 1, Model.on_self. simpl. rewrite Heq.
  unfold try_except, bind, Model.on_world, logging_warning, logging_error, emit, ret.
  simpl.
  destruct (executeSql host (__insert__ cls) args false None w) as [w1 [n|e]]; simpl.
  - by destruct (Z.eqb n 1).
  - done.
Qed.

(** Every operation leaves the pool as it found it. *)
Theorem operations_return_connections (cls : Schema) (pk : value)
    (where_ : option string) (limit : option Z) (self : gmap string value)
    (w : World DB) :
  returned_to_pool (pool w) (pool (fst (Model.find host cls pk w)))
  /\ returned_to_pool (pool w) (pool (fst (Model.findAll host cls where_ limit w)))
  /\ returned_to_pool (pool w) (pool (fst (Model.findCount host cls where_ limit w)))
  /\ returned_to_pool (pool w) (pool (snd (fst (Model.save host inherited cls (self, w)))))
  /\ returned_to_pool (pool w) (pool (snd (fst (Model.update host inherited cls (self, w)))))
  /\ returned_to_pool (pool w) (pool (fst (Model.remove host cls pk w))).
Proof.
  split_and!.
  - rewrite find_unfold.
    pose proof (executeSql_pool host
      (__select__ cls +:+ " where " +:+ __primary_key__ cls +:+ "= ?") [pk] true
      (Some 1) w) as H.
    by destruct (executeSql _ _ _ _ _ _) as [w' r].
  - rewrite findAll_unfold.
    match goal with |- context [executeSql host ?q ?a true limit w] =>
      pose proof (executeSql_pool host q a true limit w) as H end.
    by destruct (executeSql _ _ _ _ _ _) as [w' r].
  - unfold Model.findCount, bind at 1. rewrite findAll_unfold.
    match goal with |- context [executeSql host ?q ?a true limit w] =>
      pose proof (executeSql_pool host q a true limit w) as H end.
    destruct (executeSql _ _ _ _ _ _) as [w' [[|r rs]|e]]; done.
  - unfold Model.save, bind at 1, Model.on_self. simpl.
    destruct (Model.resolve_args inherited cls self) as [self' [args|e]]; simpl;
      [|apply returned_to_pool_refl].
    unfold try_except, bind, Model.on_world, logging_warning, logging_error, emit,
      add_log, ret. simpl.
    pose proof (executeSql_pool host (__insert__ cls) args false None w) as H.
    destruct (executeSql _ _ _ _ _ _) as [w1 [n|e]]; simpl in *; [|done].
    by destruct (Z.eqb n 1).
  - unfold Model.update, bind at 1, Model.on_self. simpl.
    destruct (Model.resolve_args inherited cls self) as [self' [args|e]]; simpl;
      [|apply returned_to_pool_refl].
    unfold bind, Model.on_world, logging_warning, emit, add_log, ret. simpl.
    pose proof (executeSql_pool host (__update__ cls) args false None w) as H.
    destruct (executeSql _ _ _ _ _ _) as [w1 [n|e]]; simpl in *; [|done].
    by destruct (Z.eqb n 1).
  - unfold Model.remove, bind, logging_warning, emit, add_log, ret.
    pose proof (executeSql_pool host (__delete__ cls) [pk] false None w) as H.
    destruct (executeSql _ _ _ _ _ _) as [w1 [n|e]]; simpl in *; [|done].
    by destruct (Z.eqb n 1).
Qed.

End Operations.

Lemma update_remove_propagate_errors_witness :
  Model.remove scripted Student (VStr "08")
    (world0 (mkScript [] 0 (Some (Error "server has gone away"))))
  = (fst (executeSql scripted (__delete__ Student) [VStr "08"] false None
            (world0 (mkScript [] 0 (Some (Error "server has gone away"))))),
     Raise (Error "server has gone away")).
Proof.
  exact (proj2 (update_remove_propagate_errors scripted dict_methods Student)
           (VStr "08") (world0 (mkScript [] 0 (Some (Error "server has gone away")))) _
           (Error "server has gone away") eq_refl).
Defined.

Lemma save_runs_insert_witness :
  snd (Model.save scripted dict_methods Student
         (Model.__init__ [("SId", VStr "08"); ("Sname", VStr "X")],
          world0 (mkScript [] 1 None)))
  = Ok VNone.
Proof.
  rewrite (save_runs_insert scripted dict_methods "Student" Student_attrs Student
             (Model.__init__ [("SId", VStr "08"); ("Sname", VStr "X")])
             (world0 (mkScript [] 1 None)) [VStr "X"; VNone; VNone; VStr "08"]
             eq_refl Student_unshadowed eq_refl).
  reflexivity.
Defined.


(** [executeSql] only appends to the log: what was logged before the
    call is still there, in the same order. *)
Theorem executeSql_appends_to_log {DB : Type} (host : Host DB) (sql : string)
    (args : list value) (select_ : bool) (limit : option Z) (w : World DB) :
  exists l,
    logs (fst (executeSql host sql args select_ limit w)) = (logs w ++ l)%list
    /\ (length l <= 3)%nat.
Proof.
  unfold executeSql, bind, lift_result, logging_info, emit, add_log,
    async_with_acquire, on_db, ret, set_pool.
  destruct (py_format host (replace_qmark sql) args) as [text|e]; simpl;
    [|exists []; rewrite app_nil_r; split; [done|simpl; lia]].
  destruct (acquire (pool w)) as [[c p]|e]; simpl;
    [|exists [mkLog INFO (Text text)]; split; [done|simpl; lia]].
  destruct (conn_cursor host c (db w)) as [d1 [cur|e]]; simpl;
    [|exists [mkLog INFO (Text text)]; split; [done|simpl; lia]].
  destruct select_; simpl.
  - destruct (cur_execute host cur _ _ d1) as [d2 [[]|e]]; simpl;
      [|exists [mkLog INFO (Text text)]; split; [done|simpl; lia]].
    destruct (limit_truthy limit) as [n|]; simpl.
    + destruct (cur_fetchmany host cur n d2) as [d3 [rs|e]]; simpl;
        [|exists [mkLog INFO (Text text)]; split; [done|simpl; lia]].
      destruct (cur_close host cur d3) as [d4 [[]|e]]; simpl;
        eexists [_; _; _]; rewrite <- !app_assoc; split; done.
    + destruct (cur_fetchall host cur d2) as [d3 [rs|e]]; simpl;
        [|exists [mkLog INFO (Text text)]; split; [done|simpl; lia]].
      destruct (cur_close host cur d3) as [d4 [[]|e]]; simpl;
        eexists [_; _; _]; rewrite <- !app_assoc; split; done.
  - destruct (cur_execute host cur _ _ d1) as [d2 [[]|e]]; simpl;
      [|exists [mkLog INFO (Text text)]; split; [done|simpl; lia]].
    destruct (cur_close host cur d2) as [d3 [[]|e]]; simpl;
      eexists [_; _; _]; rewrite <- !app_assoc; split; done.
Qed.

(** ** Placeholders and arguments *)

Lemma count_qmark_app (a b : string) :
  count_qmark (a +:+ b) = (count_qmark a + count_qmark b)%nat.
Proof. induction a as [|c a IH]; simpl; [done|]. rewrite IH. lia. Qed.

Lemma count_qmark_join (l : list string) :
  count_qmark (join ", " l) = list_sum (map count_qmark l).
Proof.
  unfold join. induction l as [|x l IH]; [done|].
  destruct l as [|y l].
  - simpl. lia.
  - change (String.concat ", " (x :: y :: l))
      with (x +:+ ", " +:+ String.concat ", " (y :: l)).
    rewrite !count_qmark_app, IH. simpl. lia.
Qed.

Lemma list_sum_zero {A} (f : A -> nat) (l : list A) :
  (forall x, In x l -> f x = O) -> list_sum (map f l) = O.
Proof.
  induction l as [|x l IH]; intros H; simpl; [done|].
  rewrite (H x) by (by left). rewrite IH; [done|]. intros y Hy. apply H. by right.
Qed.

Lemma list_sum_repeat_qmark (n : nat) :
  list_sum (map count_qmark (repeat "?" n)) = n.
Proof. induction n as [|n IH]; simpl; [done|]. by rewrite IH. Qed.

Lemma count_qmark_sets (l : list (string * Field.t)) :
  (forall k f, In (k, f) l -> count_qmark (column_name k f) = O) ->
  list_sum (map count_qmark (map set_clause l)) = length l.
Proof.
  induction l as [|[k f] l IH]; intros H; [done|].
  change (list_sum (map count_qmark (map set_clause ((k, f) :: l))))
    with (count_qmark (set_clause (k, f))
          + list_sum (map count_qmark (map set_clause l)))%nat.
  cbn [length]. rewrite IH by (intros k' f' Hin; apply H; by right).
  unfold set_clause. cbn [fst snd].
  rewrite name_or_column_name, !count_qmark_app, (H k f) by (by left).
  simpl. lia.
Qed.

(** [sql.replace('?', '%s')] leaves no ['?'] behind, lengthens the
    statement by one character for each, and does not touch a statement
    that has none. *)
Theorem replace_qmark_placeholders (s : string) :
  count_qmark (replace_qmark s) = O
  /\ String.length (replace_qmark s) = (String.length s + count_qmark s)%nat
  /\ (count_qmark s = O -> replace_qmark s = s).
Proof.
  induction s as [|c s (IH1 & IH2 & IH3)]; [done|]. simpl.
  destruct (Ascii.eqb c "?") eqn:Hc; simpl.
  - change ("" +:+ replace_qmark s) with (replace_qmark s).
    split_and!; [done|lia|done].
  - rewrite Hc. split_and!; [done|lia|]. intros H. by rewrite IH3.
Qed.

(** When neither the table name nor the column names hold a ['?'], the
    templates of a compiled class carry as many placeholders as their
    statements are given arguments: none for SELECT, one for DELETE, and
    for INSERT and UPDATE one per resolved argument of [save] and
    [update]. *)
Theorem placeholders_match_arguments (name : string) (attrs : list (string * attr))
    (pk : string) :
  table_declaration name attrs ->
  pk_keys attrs = [pk] ->
  count_qmark (table_name name attrs) = O ->
  (forall k, In k (dict_keys attrs) -> count_qmark k = O) ->
  (forall k f, In (k, f) (nonkey_fields attrs) -> count_qmark (column_name k f) = O) ->
  exists s,
    snd (__new__ name attrs) = Ok (Table s)
    /\ count_qmark (__select__ s) = O
    /\ count_qmark (__delete__ s) = 1%nat
    /\ forall inherited self args,
         snd (Model.resolve_args inherited s self) = Ok args ->
         count_qmark (__insert__ s) = length args
         /\ count_qmark (__update__ s) = length args.
Proof.
  intros Hdecl Hpk Htable Hkeys Hcols. pose proof Hdecl as (Hname & Hnd & _).
  assert (Hpk0 : count_qmark pk = O).
  { apply Hkeys, pk_keys_dict_keys. rewrite Hpk. by left. }
  assert (Hcolumns : list_sum (map count_qmark (map backtick (nonkey_keys attrs))) = O).
  { rewrite map_map. apply list_sum_zero. intros k Hin. unfold backtick.
    rewrite !count_qmark_app. simpl.
    rewrite Hkeys; [done|]. unfold nonkey_keys in Hin.
    apply in_map_iff in Hin as ([k' f] & <- & Hin).
    by apply nonkey_fields_items, field_items_keys in Hin. }
  destruct (new_one_pk name attrs pk) as (sets & Hsets & Hnew); [done| |done|].
  { apply (table_declaration_pk_nonempty name attrs); [done|]. rewrite Hpk. by left. }
  unfold nonkey_keys in Hsets. rewrite map_result_set_item in Hsets.
  2:{ intros k f Hin. rewrite collect_NoDup by done.
      apply dict_get_In; [by apply field_items_NoDup|by apply nonkey_fields_items]. }
  injection Hsets as <-.
  eexists. split; [exact Hnew|].
  cbn [__select__ __delete__ __insert__ __update__ compiled].
  rewrite !count_qmark_app, !count_qmark_join, Hcolumns, Htable, Hpk0.
  split_and!; [done..|].
  intros inherited self args Hargs.
  destruct (Model.resolve_args inherited _ self) as [self' r] eqn:Hres.
  simpl in Hargs. subst r. apply resolve_args_length in Hres. rewrite Hres.
  cbn [__fields__ compiled].
  rewrite chars_str_mul, list_sum_repeat_qmark, count_qmark_sets by done.
  unfold nonkey_keys. rewrite !length_map. simpl. lia.
Qed.

Lemma placeholders_match_arguments_witness :
  exists s,
    snd (__new__ "Student" Student_attrs) = Ok (Table s)
    /\ count_qmark (__select__ s) = O
    /\ count_qmark (__delete__ s) = 1%nat
    /\ forall inherited self args,
         snd (Model.resolve_args inherited s self) = Ok args ->
         count_qmark (__insert__ s) = length args
         /\ count_qmark (__update__ s) = length args.
Proof.
  apply (placeholders_match_arguments "Student" Student_attrs "SId"
           Student_declaration eq_refl eq_refl).
  - intros k Hin. simpl in Hin.
    destruct Hin as [<-|[<-|[<-|[<-|[<-|[]]]]]]; reflexivity.
  - intros k f Hin. simpl in Hin.
    destruct Hin as [[= <- <-]|[[= <- <-]|[[= <- <-]|[]]]]; reflexivity.
Defined.


(** ** Building a record *)

(** A record built from keyword arguments holds each of them: for a
    name ordinary lookup does not find on the class, reading the
    attribute gives the value passed, and an attribute that was not
    passed is not found. *)
Theorem init_attributes (inherited : string -> option value) (cls : Schema)
    (kw : list (string * value)) (k : string) :
  NoDup (map fst kw) ->
  Model.class_lookup inherited cls k = None ->
  (forall v, In (k, v) kw ->
     Model.attribute inherited cls (Model.__init__ kw) k = Ok v)
  /\ (~ In k (map fst kw) ->
      Model.attribute inherited cls (Model.__init__ kw) k =
        Raise (AttributeError ("'Model' object has no attribute '" +:+ k +:+ "'"))).
Proof.
  intros Hnd Hk. rewrite attribute_unshadowed by done.
  unfold Model.__getattr__, Model.__init__. split.
  - intros v Hin. apply list_elem_of_In in Hin.
    apply (elem_of_list_to_map (M := gmap string)) in Hin; [|done]. by rewrite Hin.
  - intros Hnin.
    rewrite (not_elem_of_list_to_map_1 (M := gmap string)); [done|].
    intros H. apply Hnin. by apply list_elem_of_In.
Qed.

Lemma init_attributes_witness :
  Model.attribute dict_methods Student
    (Model.__init__ [("SId", VStr "08"); ("Sname", VStr "X")]) "Sname"
    = Ok (VStr "X").
Proof.
  apply (proj1 (init_attributes dict_methods Student
                  [("SId", VStr "08"); ("Sname", VStr "X")] "Sname"
                  ltac:(apply (bool_decide_unpack _); vm_compute; exact I) eq_refl)).
  simpl. tauto.
Defined.

(** ** Selecting rows *)

(** With a WHERE text and no row limit, [findAll] runs the SELECT
    template followed by [where] and the text as given, binds no
    argument, fetches all rows, and returns them, or [None] when there
    are none. *)
Theorem findAll_returns_all_rows {DB : Type} (host : Host DB) (cls : Schema)
    (wh : string) (w : World DB) text c p d1 cur d2 rows d3 d4 :
  let sql := __select__ cls +:+ " where " +:+ wh in
  wh <> "" ->
  py_format host (replace_qmark sql) [] = Ok text ->
  acquire (pool w) = Ok (c, p) ->
  conn_cursor host c (db w) = (d1, Ok cur) ->
  cur_execute host cur (replace_qmark sql) [] d1 = (d2, Ok tt) ->
  cur_fetchall host cur d2 = (d3, Ok rows) ->
  cur_close host cur d3 = (d4, Ok tt) ->
  snd (Model.findAll host cls (Some wh) None w) =
    Ok (match rows with
        | [] => VNone
        | _ :: _ => VList rows
        end).
Proof.
  intros sql Hwh Hfmt Hacq Hcur Hexe Hfetch Hclose.
  rewrite findAll_unfold.
  assert (Htruthy : Model.where_truthy (Some wh) = Some wh) by (by destruct wh).
  rewrite Htruthy. fold sql.
  unfold executeSql, bind, lift_result, logging_info, emit, add_log,
    async_with_acquire, on_db, ret, set_pool, limit_truthy.
  rewrite Hfmt. simpl. rewrite Hacq. simpl. rewrite Hcur. simpl.
  rewrite Hexe. simpl. rewrite Hfetch. simpl. rewrite Hclose. simpl.
  by destruct rows.
Qed.

Lemma findAll_returns_all_rows_witness :
  snd (Model.findAll scripted Student (Some "SId >= 02") None
         (world0 (mkScript [row02; row02] 0 None)))
  = Ok (VList [row02; row02]).
Proof.
  exact (findAll_returns_all_rows scripted Student "SId >= 02"
           (world0 (mkScript [row02; row02] 0 None))
           "select `SId`, `Sname`, `Sage`, `Ssex` from `Student` where SId >= 02"
           1%nat (mkPool [2%nat] [1%nat]) (mkScript [row02; row02] 0 None) 0%nat
           (mkScript [row02; row02] 0 None) [row02; row02]
           (mkScript [row02; row02] 0 None) (mkScript [row02; row02] 0 None)
           ltac:(discriminate) eq_refl eq_refl eq_refl eq_refl eq_refl eq_refl).
Defined.

(** ** What compilation logs *)

Lemma scan_logs items st logs st' :
  snd (scan items st logs) = Ok st' ->
  fst (scan items st logs) = (logs ++ map found_mapping (field_items items))%list.
Proof.
  revert st logs. induction items as [|[k a] items IH]; intros st logs H.
  - simpl. by rewrite app_nil_r.
  - destruct a as [f| |]; simpl in *; try by apply IH.
    destruct (Field.primary_key f).
    + destruct (pk_truthy (primaryKey st)); [done|].
      rewrite (IH _ _ H). by rewrite <- app_assoc.
    + rewrite (IH _ _ H). by rewrite <- app_assoc.
Qed.

(** A class that compiles logs its name and table, then one line for
    each declared field, in declaration order. *)
Theorem compilation_log (name : string) (attrs : list (string * attr)) (s : Schema) :
  snd (__new__ name attrs) = Ok (Table s) ->
  fst (__new__ name attrs) =
    mkLog INFO (Text ("found model: " +:+ name +:+ " (table: " +:+ __table__ s +:+ ")"))
      :: map found_mapping (field_items attrs).
Proof.
  intros Hnew. pose proof Hnew as Hinv.
  apply new_Table_inv in Hinv as (pk & sets & _ & _ & ->).
  cbn [__table__ compiled].
  unfold __new__ in *. destruct (String.eqb name "Model"); [done|].
  match type of Hnew with context [scan attrs ?st0 ?l0] =>
    pose proof (scan_logs attrs st0 l0) as Hlogs end.
  destruct (scan attrs _ _) as [logs [st|e]] eqn:Hscan; [|done].
  simpl in Hlogs. specialize (Hlogs st eq_refl).
  destruct (primaryKey st) as [pk'|]; [|done].
  destruct (negb (str_truthy pk')); [done|].
  destruct (map_result _ _); [|done]. simpl. by rewrite Hlogs.
Qed.

Lemma compilation_log_witness :
  length (fst (__new__ "Student" Student_attrs)) = 5%nat.
Proof.
  rewrite (compilation_log "Student" Student_attrs Student eq_refl).
  reflexivity.
Defined.
